(** * ansible-runner-web: task materialisation, dispatch and execution

    A shallow embedding of the task pipeline of the web front-end
    (createTask, writeFile, updateTask, startRunAnsiblePlaybookService,
    runAnsiblePlaybook and the run-trigger route of main), in its two source
    variants:

    - [main_go]  : src/cmd/runner/main.go (the web server part of the file),
    - [part_000] : src/unnamed/part_000.

    Where the two variants differ, a definition takes the variant as an
    argument and branches on it, so every branch can be read against the
    source function of the same name. *)

From Stdlib Require Import ZArith NArith Ascii Bool.
From stdpp Require Import base gmap strings list sorting.


(** ** Go strings

    A Go string is a sequence of bytes: [string] of 8-bit [ascii]. *)

Module strings.

Definition CR : ascii := "013"%char.
Definition LF : ascii := "010"%char.

(** [strings.ReplaceAll(s, old, new)] for a one-byte [old], the only way
    the source calls it ([ReplaceAll(playbookContent, "\r", "")]). *)
Fixpoint ReplaceAll (s : string) (old : ascii) (new : string) : string :=
  match s with
  | EmptyString => EmptyString
  | String c s' =>
      if Ascii.eqb c old then new +:+ ReplaceAll s' old new
      else String c (ReplaceAll s' old new)
  end.

(** [strings.Split(s, sep)] for a one-byte [sep]; [Split("", sep)] is the
    one-element slice holding the empty string. *)
Fixpoint Split (s : string) (sep : ascii) : list string :=
  match s with
  | EmptyString => [EmptyString]
  | String c s' =>
      if Ascii.eqb c sep then EmptyString :: Split s' sep
      else match Split s' sep with
           | [] => [String c EmptyString]
           | h :: t => String c h :: t
           end
  end.

(** [strings.Join(elems, sep)], used to state what [Split] preserves. *)
Fixpoint Join (elems : list string) (sep : ascii) : string :=
  match elems with
  | [] => EmptyString
  | [e] => e
  | e :: rest => e +:+ String sep (Join rest sep)
  end.

(** [strings.IndexByte(s, c) < 0] *)
Fixpoint lacks (c : ascii) (s : string) : bool :=
  match s with
  | EmptyString => true
  | String d s' => negb (Ascii.eqb d c) && lacks c s'
  end.

Fixpoint bytes (s : string) : list ascii :=
  match s with
  | EmptyString => []
  | String c s' => c :: bytes s'
  end.

End strings.

(** ** bytes.Buffer *)

Module Buffer.

Record t := { contents : string }.

(** [var w bytes.Buffer] *)
Definition zero : t := {| contents := EmptyString |}.

Definition WriteString (w : t) (s : string) : t :=
  {| contents := contents w +:+ s |}.

Definition Reset (w : t) : t := {| contents := EmptyString |}.

Definition String (w : t) : string := contents w.

End Buffer.

Definition nl : string := String strings.LF EmptyString.

(** The two source variants. *)
Inductive variant := main_go | part_000.

(** ** The materialiser part of createTask *)

(** The playbook buffer of createTask: the fixed skeleton, then the loop
    [for _, v := range strings.Split(playbookContent, "\n")] over the body
    from which the carriage returns were replaced away. *)
Definition write_skeleton (v : variant) (w : Buffer.t) : Buffer.t :=
  match v with
  | main_go =>
      let w := Buffer.WriteString w ("- hosts: servers" +:+ nl) in
      let w := Buffer.WriteString w ("  gather_facts: false" +:+ nl) in
      Buffer.WriteString w ("  tasks:" +:+ nl)
  | part_000 =>
      let w := Buffer.WriteString w ("- hosts: servers" +:+ nl) in
      Buffer.WriteString w ("  tasks:" +:+ nl)
  end.

Definition playbook_buffer (v : variant) (playbookContent : string) : Buffer.t :=
  let w := write_skeleton v Buffer.zero in
  let playbookContent := strings.ReplaceAll playbookContent strings.CR EmptyString in
  fold_left (fun w line => Buffer.WriteString w ("  " +:+ line +:+ nl))
            (strings.Split playbookContent strings.LF) w.

(** The lines between the host-group header and the task-list marker. *)
Definition between (v : variant) : list string :=
  match v with
  | main_go => ["  gather_facts: false"]
  | part_000 => []
  end.

(** The inventory buffer of createTask: the same buffer [w], after the
    playbook was taken from it, is reset and refilled. *)
Definition inventory_buffer (w : Buffer.t) (inventoryContent : string) : Buffer.t :=
  let w := Buffer.Reset w in
  let w := Buffer.WriteString w ("[servers]" +:+ nl) in
  Buffer.WriteString w inventoryContent.


(** ** Errors

    A Go [error] value, kept structured so that the kind of a failure can be
    told from the value; [Error_text] is its [Error()] string. A nil error is
    [None] of [option error]. *)
Inductive error :=
| ErrRecordNotFound                         (* gorm.ErrRecordNotFound *)
| ErrDatabase (msg : string)                (* any other error of the database *)
| ErrIO (msg : string)                      (* an *os.PathError and the like *)
| ErrDeadlineExceeded                       (* the context's deadline passed *)
| ErrExitStatus (code : Z)                  (* the process exited non-zero *)
| ErrParse (msg : string)                   (* output is no JSON results stream *)
| Errorf (prefix : string) (cause : error). (* fmt.Errorf(prefix + "%v", cause) *)

Fixpoint Error_text (e : error) : string :=
  match e with
  | ErrRecordNotFound => "record not found"
  | ErrDatabase msg => msg
  | ErrIO msg => msg
  | ErrDeadlineExceeded => "context deadline exceeded"
  | ErrExitStatus _ => "exit status"      (* the code number is left out *)
  | ErrParse msg => msg
  | Errorf prefix cause => prefix +:+ Error_text cause
  end.

(** ** Data model: the four row structs *)

(** [time.Time], as an instant on the wall clock. *)
Definition Time := Z.

Module User.
Record t := { ID : N; Name : string; Password : string }.
Definition zero : t := {| ID := 0; Name := ""; Password := "" |}.
End User.

Module Inventory.
Record t := { ID : N; Name : string; Path : string; Creator : string }.
Definition zero : t := {| ID := 0; Name := ""; Path := ""; Creator := "" |}.
End Inventory.

Module Playbook.
Record t := { ID : N; Name : string; Path : string; Creator : string }.
Definition zero : t := {| ID := 0; Name := ""; Path := ""; Creator := "" |}.
End Playbook.

Module Task.
Record t := {
  ID : N;
  TaskID : string;
  Name : string;
  Status : N;
  UpdatedAt : Time;
  PlaybookID : N;
  Playbook : Playbook.t;
  InventoryID : N;
  Inventory : Inventory.t;
  UserID : N;
  User : User.t;
  Error : string
}.

(** [var task Task] *)
Definition zero : t :=
  {| ID := 0; TaskID := ""; Name := ""; Status := 0; UpdatedAt := 0%Z;
     PlaybookID := 0; Playbook := Playbook.zero;
     InventoryID := 0; Inventory := Inventory.zero;
     UserID := 0; User := User.zero; Error := "" |}.

(** Field assignments on a struct value; [Task{Status: s, UpdatedAt: u}] is
    [set_UpdatedAt u (set_Status s zero)]. *)
Definition set_Status (s : N) (x : t) : t :=
  {| ID := ID x; TaskID := TaskID x; Name := Name x; Status := s;
     UpdatedAt := UpdatedAt x; PlaybookID := PlaybookID x; Playbook := Playbook x;
     InventoryID := InventoryID x; Inventory := Inventory x;
     UserID := UserID x; User := User x; Error := Error x |}.

Definition set_UpdatedAt (u : Time) (x : t) : t :=
  {| ID := ID x; TaskID := TaskID x; Name := Name x; Status := Status x;
     UpdatedAt := u; PlaybookID := PlaybookID x; Playbook := Playbook x;
     InventoryID := InventoryID x; Inventory := Inventory x;
     UserID := UserID x; User := User x; Error := Error x |}.

Definition set_Error (e : string) (x : t) : t :=
  {| ID := ID x; TaskID := TaskID x; Name := Name x; Status := Status x;
     UpdatedAt := UpdatedAt x; PlaybookID := PlaybookID x; Playbook := Playbook x;
     InventoryID := InventoryID x; Inventory := Inventory x;
     UserID := UserID x; User := User x; Error := e |}.
End Task.

(** The status codes the source writes as literals. *)
Definition Pending : N := 0.
Definition Running : N := 1.
Definition Succeeded : N := 2.
Definition Failed : N := 3.

(** ** The database, through gorm

    One table per row struct, rows in insertion (hence id) order. A stored
    task row carries its columns; its association fields are filled in only
    when a query preloads them. Every call of the database can fail: the
    caller passes what the database answers ([fault : option error]). *)
Module gorm.

Record DB := {
  users : list User.t;
  inventories : list Inventory.t;
  playbooks : list Playbook.t;
  tasks : list Task.t
}.

Definition empty : DB :=
  {| users := []; inventories := []; playbooks := []; tasks := [] |}.

(** The id the table assigns to a row created with a zero primary key. *)
Definition next_id (ids : list N) : N := N.succ (foldr N.max 0%N ids).

(** [db.Create(&playbook)]: returns the error and the created row. *)
Definition Create_playbook (fault : option error) (p : Playbook.t) (d : DB)
  : option error * Playbook.t * DB :=
  match fault with
  | Some e => (Some e, p, d)
  | None =>
      let p' := {| Playbook.ID := next_id (map Playbook.ID (playbooks d));
                   Playbook.Name := Playbook.Name p;
                   Playbook.Path := Playbook.Path p;
                   Playbook.Creator := Playbook.Creator p |} in
      (None, p',
       {| users := users d; inventories := inventories d;
          playbooks := playbooks d ++ [p']; tasks := tasks d |})
  end.

(** [db.Create(&inventory)] *)
Definition Create_inventory (fault : option error) (i : Inventory.t) (d : DB)
  : option error * Inventory.t * DB :=
  match fault with
  | Some e => (Some e, i, d)
  | None =>
      let i' := {| Inventory.ID := next_id (map Inventory.ID (inventories d));
                   Inventory.Name := Inventory.Name i;
                   Inventory.Path := Inventory.Path i;
                   Inventory.Creator := Inventory.Creator i |} in
      (None, i',
       {| users := users d; inventories := inventories d ++ [i'];
          playbooks := playbooks d; tasks := tasks d |})
  end.

(** [db.Create(&task)]; the time-tracking column [updated_at] of a new row
    is set to the current time. *)
Definition Create_task (fault : option error) (now : Time) (t : Task.t) (d : DB)
  : option error * Task.t * DB :=
  match fault with
  | Some e => (Some e, t, d)
  | None =>
      let t' := {| Task.ID := next_id (map Task.ID (tasks d));
                   Task.TaskID := Task.TaskID t; Task.Name := Task.Name t;
                   Task.Status := Task.Status t; Task.UpdatedAt := now;
                   Task.PlaybookID := Task.PlaybookID t; Task.Playbook := Task.Playbook t;
                   Task.InventoryID := Task.InventoryID t; Task.Inventory := Task.Inventory t;
                   Task.UserID := Task.UserID t; Task.User := Task.User t;
                   Task.Error := Task.Error t |} in
      (None, t',
       {| users := users d; inventories := inventories d;
          playbooks := playbooks d; tasks := tasks d ++ [t'] |})
  end.

(** The association loaded by [Preload]: the referenced row, or the zero
    struct when there is none. *)
Definition preload (d : DB) (t : Task.t) : Task.t :=
  {| Task.ID := Task.ID t; Task.TaskID := Task.TaskID t; Task.Name := Task.Name t;
     Task.Status := Task.Status t; Task.UpdatedAt := Task.UpdatedAt t;
     Task.PlaybookID := Task.PlaybookID t;
     Task.Playbook :=
       default Playbook.zero
         (find (fun p => N.eqb (Playbook.ID p) (Task.PlaybookID t)) (playbooks d));
     Task.InventoryID := Task.InventoryID t;
     Task.Inventory :=
       default Inventory.zero
         (find (fun i => N.eqb (Inventory.ID i) (Task.InventoryID t)) (inventories d));
     Task.UserID := Task.UserID t;
     Task.User :=
       default User.zero
         (find (fun u => N.eqb (User.ID u) (Task.UserID t)) (users d));
     Task.Error := Task.Error t |}.

(** [db.Preload("Playbook").Preload("Inventory").Preload("User")
       .First(&task, "task_id = ?", taskId)]:
    the first row with that task_id, or ErrRecordNotFound; on an error the
    destination keeps its zero value. *)
Definition First_task (fault : option error) (taskId : string) (d : DB)
  : option error * Task.t :=
  match fault with
  | Some e => (Some e, Task.zero)
  | None =>
      match find (fun r => String.eqb (Task.TaskID r) taskId) (tasks d) with
      | Some r => (None, preload d r)
      | None => (Some ErrRecordNotFound, Task.zero)
      end
  end.

(** What [Updates(Task{...})] assigns to one matching row. Called with a
    struct, gorm updates only the columns whose field in the struct is not
    the zero value of its type; the auto-update-time column [updated_at] is
    assigned on every update. Association fields are not columns. *)
Definition assign (u r : Task.t) : Task.t :=
  {| Task.ID := if N.eqb (Task.ID u) 0 then Task.ID r else Task.ID u;
     Task.TaskID := if String.eqb (Task.TaskID u) "" then Task.TaskID r else Task.TaskID u;
     Task.Name := if String.eqb (Task.Name u) "" then Task.Name r else Task.Name u;
     Task.Status := if N.eqb (Task.Status u) 0 then Task.Status r else Task.Status u;
     Task.UpdatedAt := Task.UpdatedAt u;
     Task.PlaybookID :=
       if N.eqb (Task.PlaybookID u) 0 then Task.PlaybookID r else Task.PlaybookID u;
     Task.Playbook := Task.Playbook r;
     Task.InventoryID :=
       if N.eqb (Task.InventoryID u) 0 then Task.InventoryID r else Task.InventoryID u;
     Task.Inventory := Task.Inventory r;
     Task.UserID := if N.eqb (Task.UserID u) 0 then Task.UserID r else Task.UserID u;
     Task.User := Task.User r;
     Task.Error := if String.eqb (Task.Error u) "" then Task.Error r else Task.Error u |}.

(** [db.Where(cond).Updates(u)]: every row matching the condition is
    assigned; a failing statement changes nothing. *)
Definition Updates (fault : option error) (cond : Task.t -> bool) (u : Task.t) (d : DB)
  : option error * DB :=
  match fault with
  | Some e => (Some e, d)
  | None =>
      (None,
       {| users := users d; inventories := inventories d; playbooks := playbooks d;
          tasks := (fun r => if cond r then assign u r else r) <$> tasks d |})
  end.

End gorm.

(** ** Paths and files *)

Module filepath.

(** [filepath.Join(elem...)]: the non-empty elements, separated by a slash.
    (The source joins the data directory, a task id and a fixed file name;
    the cleaning of dot segments is not modelled.) *)
Definition Join (elem : list string) : string :=
  strings.Join (filter (fun e => e <> EmptyString) elem) "/"%char.

End filepath.

(** What the file system answers when a file is created and written: the
    creation fails (missing directory, permissions, ...), the write fails
    after [n] bytes, or all is written. *)
Inductive write_outcome :=
| create_fails (e : error)
| write_fails (e : error) (n : nat)
| written.

Module os.

(** [os.WriteFile(name, data, 0644)] *)
Definition WriteFile (o : write_outcome) (name data : string) (fs : gmap string string)
  : option error * gmap string string :=
  match o with
  | create_fails e => (Some e, fs)
  | write_fails e n => (Some e, <[name := String.substring 0 n data]> fs)
  | written => (None, <[name := data]> fs)
  end.

End os.

(** [writeFile(path, content)]: the parent directory is made when absent
    (errors of that step are dropped by the source, and show up as a failing
    [os.Create]), the file is created and the content written. *)
Definition writeFile (o : write_outcome) (path content : string) (fs : gmap string string)
  : option error * gmap string string :=
  match o with
  | create_fails e => (Some e, fs)                       (* os.Create: return err *)
  | write_fails e n =>                                   (* f.WriteString: return err *)
      (Some e, <[path := String.substring 0 n content]> fs)
  | written => (None, <[path := content]> fs)
  end.

(** ** The process state: database, data directory, log output *)

Inductive log_line :=
| log_taskid_error (taskId : string) (e : error)   (* "Error: task(%v) %v\n", taskId, err *)
| log_task_error (task : Task.t) (e : error)       (* "Error: task(%v) %v\n", task, err *)
| log_cmd (taskId : string)                        (* "[%s] %s\n", task.TaskID, cmd.String() *)
| log_exec_failed (taskId : string) (e : error)    (* "[%s] failed to exec: %v" *)
| log_write_failed (e : error)                     (* "failed to write result: %v" *)
| log_stopped (index : nat).                       (* "# %d service stopped\n" *)

Record World := {
  db : gorm.DB;
  files : gmap string string;
  rootDir : string;
  output : list log_line
}.

Definition with_db (d : gorm.DB) (w : World) : World :=
  {| db := d; files := files w; rootDir := rootDir w; output := output w |}.

Definition with_files (fs : gmap string string) (w : World) : World :=
  {| db := db w; files := fs; rootDir := rootDir w; output := output w |}.

Definition print (l : log_line) (w : World) : World :=
  {| db := db w; files := files w; rootDir := rootDir w; output := output w ++ [l] |}.

(** ** The request context of the web framework *)

Module gin.

(** The part of [*gin.Context] the handlers use: the posted form, the status
    line once it is written, the documents rendered into the body, the
    errors attached and the abort flag. *)
Record Context := {
  PostForm : string -> string;
  status : option N;
  body : list Task.t;
  Errors : list error;
  aborted : bool
}.

Definition request (form : string -> string) : Context :=
  {| PostForm := form; status := None; body := []; Errors := []; aborted := false |}.

(** [c.AbortWithError(code, err)]: writes the status line now (a status line
    already written stays), aborts the chain and attaches the error. *)
Definition AbortWithError (code : N) (err : error) (c : Context) : Context :=
  {| PostForm := PostForm c;
     status := Some (default code (status c));
     body := body c;
     Errors := Errors c ++ [err];
     aborted := true |}.

(** [c.IndentedJSON(code, obj)]: the status is [code] unless the status line
    was written before; the document is rendered into the body. *)
Definition IndentedJSON (code : N) (obj : Task.t) (c : Context) : Context :=
  {| PostForm := PostForm c;
     status := Some (default code (status c));
     body := body c ++ [obj];
     Errors := Errors c;
     aborted := aborted c |}.

End gin.

Definition StatusOK : N := 200.
Definition StatusBadRequest : N := 400.

(** ** createTask *)

(** The environment of one createTask call: the uuid drawn, and what the
    file system and the database answer, call by call. *)
Record create_env := {
  uuid_New : string;
  write_playbook : write_outcome;
  create_playbook : option error;
  write_inventory : write_outcome;
  create_inventory : option error;
  create_task : option error;
  create_now : Time
}.

Definition createTask (v : variant) (env : create_env) (c : gin.Context) (w : World)
  : gin.Context * World :=
  let taskName := gin.PostForm c "name" in
  let playbookContent := gin.PostForm c "playbook" in
  let inventoryContent := gin.PostForm c "inventory" in
  let taskID := uuid_New env in
  let buf := playbook_buffer v playbookContent in
  let playbookPath := filepath.Join [rootDir w; taskID; "site.yaml"] in
  let '(err, fs) := writeFile (write_playbook env) playbookPath (Buffer.String buf) (files w) in
  let w := with_files fs w in
  match err with
  | Some err => (gin.AbortWithError StatusBadRequest err c, w)
  | None =>
  let playbook := {| Playbook.ID := 0; Playbook.Name := taskName;
                     Playbook.Path := playbookPath; Playbook.Creator := "admin" |} in
  let '(err, playbook, d) := gorm.Create_playbook (create_playbook env) playbook (db w) in
  let w := with_db d w in
  match err with
  | Some err => (gin.AbortWithError StatusBadRequest err c, w)
  | None =>
  let buf := inventory_buffer buf inventoryContent in
  let inventoryPath := filepath.Join [rootDir w; taskID; "inventory.ini"] in
  let '(err, fs) := writeFile (write_inventory env) inventoryPath (Buffer.String buf) (files w) in
  let w := with_files fs w in
  (* the error branch of this write has no return *)
  let c := match err with
           | Some err => gin.AbortWithError StatusBadRequest err c
           | None => c
           end in
  let inventory := {| Inventory.ID := 0; Inventory.Name := taskName;
                      Inventory.Path := inventoryPath; Inventory.Creator := "admin" |} in
  let '(err, inventory, d) := gorm.Create_inventory (create_inventory env) inventory (db w) in
  let w := with_db d w in
  match err with
  | Some err => (gin.AbortWithError StatusBadRequest err c, w)
  | None =>
  let task := {| Task.ID := 0; Task.TaskID := taskID; Task.Name := taskName;
                 Task.Status := 0; Task.UpdatedAt := Task.UpdatedAt Task.zero;
                 Task.PlaybookID := Playbook.ID playbook; Task.Playbook := Playbook.zero;
                 Task.InventoryID := Inventory.ID inventory; Task.Inventory := Inventory.zero;
                 Task.UserID := 1; Task.User := User.zero; Task.Error := "" |} in
  let '(err, task, d) := gorm.Create_task (create_task env) (create_now env) task (db w) in
  let w := with_db d w in
  match err with
  | Some err => (gin.AbortWithError StatusBadRequest err c, w)
  | None => (gin.IndentedJSON StatusOK task c, w)
  end end end end.

(** ** The external process and the automation library *)

(** [time.Duration], in nanoseconds. *)
Definition Duration := Z.
Definition Minute : Duration := (60 * 1000000000)%Z.

(** What the external [ansible-playbook] process does when it is started:
    how long it runs if nobody stops it, the exit code it then returns, and
    the bytes it has written to the captured writer by the time it ends or
    is stopped. *)
Record process := {
  runs_for : Duration;
  exit_code : Z;
  emits : string
}.

(** Modelled from the spec: [exec.Execute(ctx)] of the automation library,
    which is not part of the repository. The process runs under the
    context's wall-clock timeout; when it runs longer it is forcibly
    cancelled and a timeout failure is reported, when it exits non-zero that
    failure is reported, and otherwise the call succeeds. The captured
    writer holds what the process wrote in each case. *)
Definition Execute (timeout : Duration) (p : process) : option error * string :=
  if (timeout <? runs_for p)%Z then (Some ErrDeadlineExceeded, emits p)
  else if (exit_code p =? 0)%Z then (None, emits p)
  else (Some (ErrExitStatus (exit_code p)), emits p).

(** The pure functions of the libraries the executor calls on the captured
    output: the parser of the line-delimited JSON result stream and the JSON
    encoder of the parsed document. Their code is outside the repository;
    the executor is modelled over any implementation of them. *)
Class result_format := {
  AnsiblePlaybookJSONResults : Type;
  ParseJSONResultsStream : string -> AnsiblePlaybookJSONResults + error;
  MarshalIndent : AnsiblePlaybookJSONResults -> string + error
}.

(** The environment of one execution: the process started, whether reading
    the buffer back fails, and what the file system answers to the write of
    the result document. *)
Record run_env := {
  proc : process;
  read_all : option error;
  write_result : write_outcome
}.

(** The timeout each variant passes to [context.WithTimeout]. *)
Definition timeout (v : variant) : Duration :=
  match v with
  | main_go => (10 * Minute)%Z
  | part_000 => (30 * Minute)%Z
  end.

(** The timeout of the two stand-alone runner programs at the head of
    src/cmd/runner/main.go. *)
Definition runner_timeout : Duration := (55 * Minute)%Z.

Section Executor.
Context {fmt : result_format}.

(** ** runAnsiblePlaybook *)
Definition runAnsiblePlaybook (v : variant) (env : run_env) (task : Task.t) (w : World)
  : option error * World :=
  match v with
  | main_go =>
      let '(err, buff) := Execute (timeout main_go) (proc env) in
      match err with
      | Some err => (Some err, w)
      | None =>
      match ParseJSONResultsStream buff with
      | inr err => (Some err, w)
      | inl res =>
      match MarshalIndent res with
      | inr err => (Some err, w)
      | inl raw =>
      let resultPath := filepath.Join [rootDir w; Task.TaskID task; "result.json"] in
      let '(err, fs) := os.WriteFile (write_result env) resultPath raw (files w) in
      let w := with_files fs w in
      match err with
      | Some err => (Some err, w)
      | None => (None, w)
      end end end end
  | part_000 =>
      let w := print (log_cmd (Task.TaskID task)) w in
      let '(err, buff) := Execute (timeout part_000) (proc env) in
      (* the error of the execution is printed, not returned *)
      let w := match err with
               | Some err => print (log_exec_failed (Task.TaskID task) err) w
               | None => w
               end in
      match read_all env with
      | Some err => (Some (Errorf "failed to read result: " err), w)
      | None =>
      let raw := buff in
      let resultPath := filepath.Join [rootDir w; Task.TaskID task; "result.json"] in
      let '(err, fs) := os.WriteFile (write_result env) resultPath raw (files w) in
      let w := with_files fs w in
      let w := match err with
               | Some err => print (log_write_failed err) w
               | None => w
               end in
      (None, w)
      end
  end.

(** ** updateTask *)
Definition updateTask (v : variant) (fault : option error) (now : Time)
    (task : Task.t) (w : World) : option error * World :=
  let values :=
    match v with
    | main_go =>
        Task.set_UpdatedAt now (Task.set_Status (Task.Status task) Task.zero)
    | part_000 =>
        Task.set_Error (Task.Error task)
          (Task.set_UpdatedAt now (Task.set_Status (Task.Status task) Task.zero))
    end in
  let '(err, d) := gorm.Updates fault (fun r => N.eqb (Task.ID r) (Task.ID task)) values (db w) in
  match err with
  | Some err => (Some err, w)
  | None => (None, with_db d w)
  end.

(** ** startRunAnsiblePlaybookService

    The worker loop, one program point per blocking call of its body. *)
Inductive pc :=
| at_recv                                   (* case taskId, ok := <-taskChan *)
| at_first (taskId : string)                (* db.Preload(...).First(&task, ...) *)
| at_mark (taskId : string) (task : Task.t) (* db.Where(...).Updates(Task{Status: 1, ...}) *)
| at_run (task : Task.t)                    (* runAnsiblePlaybook(&task) *)
| at_update (task : Task.t) (err : option error)
                                            (* if err != nil {...}; updateTask(task) *)
| stopped.                                  (* return; the deferred function has run *)

(** What the environment answers at a program point. *)
Inductive answer :=
| recv (taskId : string)                    (* a value was received, ok = true *)
| recv_closed                               (* the channel is closed, ok = false *)
| db_answer (fault : option error) (now : Time)
| run_answer (env : run_env).

(** One step of worker [index]. [None]: the answer does not belong to the
    program point. Every [continue] of the body, and the end of the body,
    lead back to [at_recv]. *)
Definition worker_step (v : variant) (index : nat) (p : pc) (a : answer) (w : World)
  : option (pc * World) :=
  match p, a with
  | at_recv, recv_closed =>
      Some (stopped, print (log_stopped index) w)
  | at_recv, recv taskId =>
      Some (at_first taskId, w)
  | at_first taskId, db_answer fault _ =>
      let '(err, task) := gorm.First_task fault taskId (db w) in
      match err with
      | Some err => Some (at_recv, print (log_taskid_error taskId err) w)
      | None => Some (at_mark taskId task, w)
      end
  | at_mark taskId task, db_answer fault now =>
      let '(err, d) :=
        gorm.Updates fault (fun r => String.eqb (Task.TaskID r) taskId)
          (Task.set_UpdatedAt now (Task.set_Status 1 Task.zero)) (db w) in
      match err with
      | Some err => Some (at_recv, print (log_taskid_error taskId err) w)
      | None => Some (at_run task, with_db d w)
      end
  | at_run task, run_answer env =>
      let '(err, w) := runAnsiblePlaybook v env task w in
      Some (at_update task err, w)
  | at_update task err, db_answer fault now =>
      let task :=
        match err with
        | Some err => Task.set_Error (Error_text err) (Task.set_Status 3 task)
        | None =>
            match v with
            | main_go => Task.set_Status 2 task
            | part_000 => Task.set_Error "" (Task.set_Status 2 task)
            end
        end in
      let '(err, w) := updateTask v fault now task w in
      match err with
      | Some err => Some (at_recv, print (log_task_error task err) w)
      | None => Some (at_recv, w)
      end
  | _, _ => None
  end.

(** A run of the worker over the answers of its environment. *)
Fixpoint worker_run (v : variant) (index : nat) (answers : list answer) (p : pc) (w : World)
  : option (pc * World) :=
  match answers with
  | [] => Some (p, w)
  | a :: rest =>
      match worker_step v index p a w with
      | Some (p', w') => worker_run v index rest p' w'
      | None => None
      end
  end.



(** ** The dispatch queue and the worker pool of main *)

(** A Go channel of strings: its capacity, the values parked in its buffer
    and whether it was closed. *)
Record chan := { cap : nat; buf : list string; closed : bool }.

(** [make(chan string, n)]; [make(chan string)] is [make_chan 0]. *)
Definition make_chan (n : nat) : chan := {| cap := n; buf := []; closed := false |}.

(** [taskChan = make(chan string)] *)
Definition taskChan : chan := make_chan 0.

(** The handler of [GET /runTask/:id]:
    [taskChan <- taskId; c.Redirect(302, "/")]. A request is at its send,
    past it (redirected), or has panicked on a closed channel. *)
Inductive handler :=
| sending (taskId : string)
| redirected (taskId : string)
| panicked (taskId : string).

Record system := {
  queue : chan;
  requests : list handler;
  workers : list pc;
  world : World
}.

(** The state main reaches once the routes are set and the loop
    [for i := 0; i < 2; i++ { go startRunAnsiblePlaybookService(i, &wait) }]
    has started its goroutines. *)
Definition main_started (w : World) : system :=
  {| queue := taskChan;
     requests := [];
     workers := map (fun _ : nat => at_recv) (seq 0 2);
     world := w |}.

(** The moves of the system. A send completes either by meeting a worker
    that waits in its receive (possible only while the buffer is empty) or
    by taking a free slot of the buffer; a receive takes the head of the
    buffer, meets a sender, or sees the closed and drained channel. *)
Inductive event :=
| ev_request (taskId : string)   (* a run request reaches its send *)
| ev_handoff (i k : nat)         (* request i hands its id to waiting worker k *)
| ev_park (i : nat)              (* request i puts its id into a free buffer slot *)
| ev_take (k : nat)              (* worker k takes the head of the buffer *)
| ev_work (k : nat) (a : answer) (* worker k goes on with the job it holds *)
| ev_close                       (* close(taskChan), on a termination signal *)
| ev_drained (k : nat)           (* worker k receives ok = false *)
| ev_panic (i : nat).            (* request i sends on the closed channel *)

Definition set_queue (q : chan) (s : system) : system :=
  {| queue := q; requests := requests s; workers := workers s; world := world s |}.
Definition set_requests (r : list handler) (s : system) : system :=
  {| queue := queue s; requests := r; workers := workers s; world := world s |}.
Definition set_worker (k : nat) (p : pc) (w : World) (s : system) : system :=
  {| queue := queue s; requests := requests s; workers := <[k := p]> (workers s);
     world := w |}.

Definition system_step (v : variant) (e : event) (s : system) : option system :=
  match e with
  | ev_request taskId =>
      Some (set_requests (requests s ++ [sending taskId]) s)
  | ev_handoff i k =>
      match requests s !! i, workers s !! k, buf (queue s), closed (queue s) with
      | Some (sending taskId), Some at_recv, [], false =>
          match worker_step v k at_recv (recv taskId) (world s) with
          | Some (p, w) =>
              Some (set_worker k p w (set_requests (<[i := redirected taskId]> (requests s)) s))
          | None => None
          end
      | _, _, _, _ => None
      end
  | ev_park i =>
      match requests s !! i, closed (queue s) with
      | Some (sending taskId), false =>
          if decide (length (buf (queue s)) < cap (queue s)) then
            Some (set_queue {| cap := cap (queue s); buf := buf (queue s) ++ [taskId];
                               closed := false |}
                    (set_requests (<[i := redirected taskId]> (requests s)) s))
          else None
      | _, _ => None
      end
  | ev_take k =>
      match workers s !! k, buf (queue s) with
      | Some at_recv, taskId :: rest =>
          match worker_step v k at_recv (recv taskId) (world s) with
          | Some (p, w) =>
              Some (set_worker k p w
                      (set_queue {| cap := cap (queue s); buf := rest;
                                    closed := closed (queue s) |} s))
          | None => None
          end
      | _, _ => None
      end
  | ev_work k a =>
      match workers s !! k, a with
      | Some at_recv, _ | _, recv _ | _, recv_closed => None
      | Some p, _ =>
          match worker_step v k p a (world s) with
          | Some (p', w) => Some (set_worker k p' w s)
          | None => None
          end
      | None, _ => None
      end
  | ev_close =>
      if closed (queue s) then None
      else Some (set_queue {| cap := cap (queue s); buf := buf (queue s); closed := true |} s)
  | ev_drained k =>
      match workers s !! k, buf (queue s), closed (queue s) with
      | Some at_recv, [], true =>
          match worker_step v k at_recv recv_closed (world s) with
          | Some (p, w) => Some (set_worker k p w s)
          | None => None
          end
      | _, _, _ => None
      end
  | ev_panic i =>
      match requests s !! i, closed (queue s) with
      | Some (sending taskId), true =>
          Some (set_requests (<[i := panicked taskId]> (requests s)) s)
      | _, _ => None
      end
  end.

Fixpoint system_run (v : variant) (events : list event) (s : system) : option system :=
  match events with
  | [] => Some s
  | e :: rest =>
      match system_step v e s with
      | Some s' => system_run v rest s'
      | None => None
      end
  end.

(** A worker is executing when it is inside [runAnsiblePlaybook]. *)
Definition executing (p : pc) : bool :=
  match p with at_run _ => true | _ => false end.

End Executor.

(** A small implementation of the result format, to run the model on
    concrete inputs: a stream is accepted when it opens with a brace, and is
    encoded back unchanged. *)
Definition brace_format : result_format :=
  {| AnsiblePlaybookJSONResults := string;
     ParseJSONResultsStream := fun s =>
       match s with
       | String "{"%char _ => inl s
       | _ => inr (ErrParse "invalid character looking for beginning of value")
       end;
     MarshalIndent := fun res => inl res |}.

(** ** A concrete submission

    The request of the running example: name ping-test, a two-line playbook
    body with a Windows line ending, a one-host inventory; an empty database
    and data directory. *)
Definition demo_world : World :=
  {| db := gorm.empty; files := ∅; rootDir := "/srv/data"; output := [] |}.

Definition demo_form (field : string) : string :=
  if String.eqb field "name" then "ping-test"
  else if String.eqb field "playbook" then
    "- name: ping" +:+ String strings.CR nl +:+ "  ping:"
  else if String.eqb field "inventory" then "host1 ansible_host=10.0.0.5"
  else "".

(** Every call of the environment succeeds. *)
Definition demo_create : create_env :=
  {| uuid_New := "6f1c"; write_playbook := written; create_playbook := None;
     write_inventory := written; create_inventory := None; create_task := None;
     create_now := 100%Z |}.

(** The same submission, with the inventory file failing to be created. *)
Definition inventory_unwritable : create_env :=
  {| uuid_New := "6f1c"; write_playbook := written; create_playbook := None;
     write_inventory := create_fails (ErrIO "open inventory.ini: permission denied");
     create_inventory := None; create_task := None; create_now := 100%Z |}.


(** The database and files after the demo submission was created. *)
Definition demo_created (v : variant) : World :=
  (createTask v demo_create (gin.request demo_form) demo_world).2.

(** Three behaviours of the external process: it runs one minute past the
    variant's timeout; it exits with status 2 after a minute (say, because
    the playbook file was deleted); it succeeds after a minute with a result
    stream. *)
Definition overrun (v : variant) : run_env :=
  {| proc := {| runs_for := (timeout v + Minute)%Z; exit_code := 0;
                emits := "PLAY [servers] ***" |};
     read_all := None; write_result := written |}.

Definition exits_nonzero : run_env :=
  {| proc := {| runs_for := Minute; exit_code := 2;
                emits := "ERROR! the playbook: site.yaml could not be found" |};
     read_all := None; write_result := written |}.

Definition succeeds : run_env :=
  {| proc := {| runs_for := Minute; exit_code := 0;
                emits := "{ plays: [], stats: {} }" |};
     read_all := None; write_result := written |}.

(** The answers of the environment over one job in which the channel
    delivers [taskId], the database never fails and the execution behaves
    as [env]. *)
Definition job (taskId : string) (env : run_env) (now : Time) : list answer :=
  [recv taskId; db_answer None now; db_answer None (now + 1)%Z;
   run_answer env; db_answer None (now + 2)%Z].

(** The status and error columns of the task rows. *)
Definition outcomes (w : World) : list (N * string) :=
  map (fun r => (Task.Status r, Task.Error r)) (gorm.tasks (db w)).

(** The demo task at the step that marks it running, and the state after
    that step. *)
Definition demo_at_mark (v : variant) : pc :=
  at_mark "6f1c" (gorm.First_task None "6f1c" (db (demo_created v))).2.

Definition demo_marked (v : variant) : pc * World :=
  default (stopped, demo_created v)
    (worker_step (fmt := brace_format) v 0 (demo_at_mark v) (db_answer None 200%Z)
       (demo_created v)).

(** ** Vocabulary of the statements about the worker loop *)

(** The database call made at program point [p] fails with [e]: the lookup
    returns an error (the database's, or that no row has the id), or the
    update statement is answered with an error. *)
Definition fails_with (p : pc) (fault : option error) (w : World) (e : error) : Prop :=
  match p with
  | at_first taskId => (gorm.First_task fault taskId (db w)).1 = Some e
  | at_mark _ _ | at_update _ _ => fault = Some e
  | _ => False
  end.

(** The line reports the error [e] of a task. *)
Definition reports (l : log_line) (e : error) : Prop :=
  match l with
  | log_taskid_error _ e' | log_task_error _ e' => e' = e
  | _ => False
  end.

(** Three run requests arrive; the first two are handed to the two
    workers, the third finds no worker waiting. *)
Definition demo_events : list event :=
  [ev_request "6f1c"; ev_request "6f1c"; ev_request "77aa";
   ev_handoff 0 1; ev_handoff 1 0].

Definition demo_system : system :=
  default (main_started (demo_created main_go))
    (system_run (fmt := brace_format) main_go demo_events
       (main_started (demo_created main_go))).

(** What holds of the queue and the pool in every state main can reach:
    the channel has no buffer slot and nothing parked, and there are two
    workers. *)
Definition pool_invariant (s : system) : Prop :=
  cap (queue s) = 0 ∧ buf (queue s) = [] ∧ length (workers s) = 2.

(** ** The read-side handlers: showIndex, showTask, showResult *)

(** [readFile(path)]: the content, or the empty string and the error of
    [os.ReadFile] (the file is absent, or the read fails otherwise). *)
Definition readFile (fault : option error) (path : string) (fs : gmap string string)
  : string * option error :=
  match fault with
  | Some err => ("", Some err)
  | None =>
      match fs !! path with
      | Some raw => (raw, None)
      | None => ("", Some (ErrIO ("open " +:+ path +:+ ": no such file or directory")))
      end
  end.

(** [json.Unmarshal(content, &res)] into the result document, the decoder
    that goes with the result format. *)
Class result_decoder `{fmt : result_format} := {
  Unmarshal : string -> AnsiblePlaybookJSONResults + error
}.

(** What a handler renders into the answer. *)
Inductive document `{fmt : result_format} :=
| doc_error (msg : string)                (* gin.H{"error": msg} *)
| doc_index (tasks : list Task.t)         (* "index.html", gin.H{"tasks": tasks} *)
| doc_task (task : Task.t) (playbook inventory : string)
                                          (* gin.H{"task", "playbook", "inventory"} *)
| doc_result (res : AnsiblePlaybookJSONResults).

(** The answer under construction: the status line once it is written and
    the documents rendered so far. *)
Record reply `{fmt : result_format} := {
  reply_status : option N;
  reply_body : list document
}.

Definition no_reply `{fmt : result_format} : reply :=
  {| reply_status := None; reply_body := [] |}.

(** [c.JSON], [c.IndentedJSON] and [c.HTML] with a status and a document: the
    status counts only if no status line was written before. *)
Definition render `{fmt : result_format} (code : N) (d : document) (r : reply) : reply :=
  {| reply_status := Some (default code (reply_status r));
     reply_body := reply_body r ++ [d] |}.

(** The order of [Order("id desc")]: larger ids first. *)
Definition id_desc (a b : Task.t) : Prop := (Task.ID b <= Task.ID a)%N.

#[global] Instance id_desc_dec : RelDecision id_desc :=
  fun a b => decide (Task.ID b <= Task.ID a)%N.

(** [db.Preload("Playbook").Preload("Inventory").Preload("User")
       .Order("id desc").Limit(limit).Find(&tasks)].
    A failing call answers with its error and with what it had put into the
    destination slice by then: nothing when the query itself failed, the rows
    scanned (with the associations loaded so far) when a preload failed
    after the scan. *)
Definition Find_recent (fault : option (error * list Task.t)) (limit : nat) (d : gorm.DB)
  : option error * list Task.t :=
  match fault with
  | Some (err, scanned) => (Some err, scanned)
  | None =>
      (None,
       take limit
         (gorm.preload d <$> merge_sort id_desc (gorm.tasks d)))
  end.

(** showIndex: the error branch of the query has no return, so the page is
    rendered over whatever the query left in [tasks]. *)
Definition showIndex `{fmt : result_format} (fault : option (error * list Task.t))
    (w : World) : reply :=
  let '(err, tasks) := Find_recent fault 10 (db w) in
  let c := match err with
           | Some err => render 400 (doc_error (Error_text err)) no_reply
           | None => no_reply
           end in
  render StatusOK (doc_index tasks) c.

(** showTask: the error of the lookup is dropped, the errors of the two
    reads become the texts shown. *)
Definition showTask `{fmt : result_format}
    (first_fault read_playbook read_inventory : option error)
    (taskId : string) (w : World) : reply :=
  let '(_, task) := gorm.First_task first_fault taskId (db w) in
  let '(playbookContent, err) :=
    readFile read_playbook (Playbook.Path (Task.Playbook task)) (files w) in
  let playbookContent :=
    match err with Some err => Error_text err | None => playbookContent end in
  let '(inventoryContent, err) :=
    readFile read_inventory (Inventory.Path (Task.Inventory task)) (files w) in
  let inventoryContent :=
    match err with Some err => Error_text err | None => inventoryContent end in
  render StatusOK (doc_task task playbookContent inventoryContent) no_reply.

(** showResult: the result document of a task id, read back and decoded;
    [open_fault] is an error of [os.OpenFile] other than the file being
    absent. (The error of reading the opened file is dropped by the source
    and is not modelled.) *)
Definition showResult `{dec : result_decoder} (open_fault : option error)
    (taskId : string) (w : World) : reply :=
  let resultPath := filepath.Join [rootDir w; taskId; "result.json"] in
  let '(content, err) := readFile open_fault resultPath (files w) in
  match err with
  | Some err => render StatusOK (doc_error (Error_text err)) no_reply
  | None =>
      match Unmarshal content with
      | inr err => render StatusOK (doc_error (Error_text err)) no_reply
      | inl res => render StatusOK (doc_result res) no_reply
      end
  end.

(** The decoder that goes with [brace_format], whose encoder leaves the
    document as it is: it reads the content back unchanged. *)
Definition brace_decoder : result_decoder (fmt := brace_format) :=
  {| Unmarshal := fun s : string =>
       (inl s : @AnsiblePlaybookJSONResults brace_format + error) |}.

(** ** The stand-alone runner programs

    The two [main] functions at the head of src/cmd/runner/main.go: run one
    playbook under the 55-minute timeout and store the captured output. *)
Inductive runner := runner_json | runner_debug.

Inductive cli_line :=
| cli_cmd                    (* fmt.Println(cmd.String()) *)
| cli_body (body : string)   (* fmt.Println(string(body)) *)
| cli_fatal (e : error).     (* log.Fatal(err): print and exit with status 1 *)

(** [main] of a runner, with the value of the flag [-o]: the exit status,
    the lines printed and the file system. The first program prints the body
    before it looks at the error of reading it (what a failed read has left
    in the body is unknown and is modelled as nothing). *)
Definition runner_main (r : runner) (resultPath : string) (env : run_env)
    (fs : gmap string string) : Z * list cli_line * gmap string string :=
  let out := [cli_cmd] in
  let '(err, buff) := Execute runner_timeout (proc env) in
  match err with
  | Some err => (1%Z, out ++ [cli_fatal err], fs)
  | None =>
  let body := match read_all env with Some _ => "" | None => buff end in
  let out := match r with
             | runner_json => out ++ [cli_body body]
             | runner_debug => out
             end in
  match read_all env with
  | Some err => (1%Z, out ++ [cli_fatal err], fs)
  | None =>
  let '(err, fs) := os.WriteFile (write_result env) resultPath body fs in
  match err with
  | Some err => (1%Z, out ++ [cli_fatal err], fs)
  | None => (0%Z, out, fs)
  end end end.

(** ** Vocabulary of the statements about createTask and the pool *)

(** No call of the environment of createTask fails. *)
Definition create_succeeds (env : create_env) : Prop :=
  write_playbook env = written ∧ create_playbook env = None
  ∧ write_inventory env = written ∧ create_inventory env = None
  ∧ create_task env = None.

(** The id of the run-trigger a worker is working on. *)
Definition job_id (p : pc) : option string :=
  match p with
  | at_first taskId | at_mark taskId _ => Some taskId
  | at_run task | at_update task _ => Some (Task.TaskID task)
  | at_recv | stopped => None
  end.

(** The task id a run request carries. *)
Definition request_id (h : handler) : string :=
  match h with
  | sending taskId | redirected taskId | panicked taskId => taskId
  end.

(** Every worker that holds a job holds the id of a request whose send has
    completed; the task a worker has looked up carries the id it was looked
    up by. *)
Definition jobs_were_requested (s : system) : Prop :=
  ∀ k p, workers s !! k = Some p ->
    match p with
    | at_mark taskId task => Task.TaskID task = taskId ∧ redirected taskId ∈ requests s
    | _ => ∀ taskId, job_id p = Some taskId -> redirected taskId ∈ requests s
    end.

(** The demo system after the termination signal, and after the blocked
    third request has then panicked on the closed channel. *)
Definition demo_closed : system :=
  default demo_system
    (system_run (fmt := brace_format) main_go (demo_events ++ [ev_close])
       (main_started (demo_created main_go))).

Definition demo_panicked : system :=
  default demo_closed (system_step (fmt := brace_format) main_go (ev_panic 2) demo_closed).

(** The blocking calls a worker has ahead of it before it is back at its
    receive. *)
Definition calls_left (p : pc) : nat :=
  match p with
  | at_first _ => 4
  | at_mark _ _ => 3
  | at_run _ => 2
  | at_update _ _ => 1
  | at_recv | stopped => 0
  end.

(** The moves of a shutdown: the close of the channel, a worker going on
    with the job it holds, a worker seeing the closed channel. *)
Definition shutdown_event (e : event) : Prop :=
  match e with
  | ev_close | ev_work _ _ | ev_drained _ => True
  | _ => False
  end.

(** A process that ends at once with exit code 0 and no output. *)
Definition quiet : run_env :=
  {| proc := {| runs_for := 0%Z; exit_code := 0%Z; emits := "" |};
     read_all := None; write_result := written |}.

(** ** The server as a whole: task creation beside the dispatch

    The moves of the dispatch system, and the [POST /task] requests, each
    running createTask on the shared database and data directory. *)
Inductive server_event :=
| srv_move (e : event)
| srv_create (env : create_env) (form : string -> string).

Definition set_world (w : World) (s : system) : system :=
  {| queue := queue s; requests := requests s; workers := workers s; world := w |}.

Definition server_step `{fmt : result_format} (v : variant) (e : server_event)
    (s : system) : option system :=
  match e with
  | srv_move e => system_step v e s
  | srv_create env form =>
      Some (set_world (createTask v env (gin.request form) (world s)).2 s)
  end.

Fixpoint server_run `{fmt : result_format} (v : variant) (events : list server_event)
    (s : system) : option system :=
  match events with
  | [] => Some s
  | e :: rest =>
      match server_step v e s with
      | Some s' => server_run v rest s'
      | None => None
      end
  end.




(** The demo submission is created, triggered and handed to worker 0, which
    looks the task up, marks it running and runs it with success: the worker
    stands before its final update. *)
Definition demo_server_events : list server_event :=
  [srv_create demo_create demo_form;
   srv_move (ev_request "6f1c"); srv_move (ev_handoff 0 0);
   srv_move (ev_work 0 (db_answer None 200%Z));
   srv_move (ev_work 0 (db_answer None 201%Z));
   srv_move (ev_work 0 (run_answer succeeds))].

Definition demo_server (v : variant) : system :=
  default (main_started demo_world)
    (server_run (fmt := brace_format) v demo_server_events (main_started demo_world)).

(** * Properties *)

(** ** Strings *)

Lemma append_cons (c : ascii) (s t : string) : String c s +:+ t = String c (s +:+ t).
Proof. reflexivity. Qed.

Lemma append_nil_l (t : string) : "" +:+ t = t.
Proof. reflexivity. Qed.

Lemma append_nil_r (s : string) : s +:+ "" = s.
Proof. induction s as [|c s IH]; [done | by rewrite append_cons, IH]. Qed.

Lemma append_assoc (s1 s2 s3 : string) : (s1 +:+ s2) +:+ s3 = s1 +:+ s2 +:+ s3.
Proof. induction s1 as [|c s1 IH]; [done | by rewrite !append_cons, IH]. Qed.

Lemma Split_nonempty (s : string) (sep : ascii) : strings.Split s sep <> [].
Proof.
  destruct s as [|c s]; simpl; [done |].
  destruct (Ascii.eqb c sep); [done |].
  by destruct (strings.Split s sep).
Qed.

(** A line without the separator, followed by the separator, is split off
    as one element. *)
Lemma Split_line (l rest : string) (sep : ascii) :
  strings.lacks sep l = true ->
  strings.Split (l +:+ String sep rest) sep = l :: strings.Split rest sep.
Proof.
  induction l as [|c l IH]; intros H.
  - rewrite append_nil_l. simpl. by rewrite Ascii.eqb_refl.
  - simpl in H. apply andb_prop in H as [Hc Hl].
    apply negb_true_iff in Hc. rewrite append_cons. simpl.
    rewrite Hc, (IH Hl). done.
Qed.

Lemma Split_lacks (s : string) (sep : ascii) :
  Forall (fun l => strings.lacks sep l = true) (strings.Split s sep).
Proof.
  induction s as [|c s IH]; simpl.
  - by repeat constructor.
  - destruct (Ascii.eqb c sep) eqn:E.
    + by constructor.
    + destruct (strings.Split s sep) as [|h t]; [by repeat constructor; simpl; rewrite E |].
      inversion IH; subst. constructor; [| done].
      simpl. by rewrite E.
Qed.

Lemma Join_Split (s : string) (sep : ascii) :
  strings.Join (strings.Split s sep) sep = s.
Proof.
  induction s as [|c s IH]; simpl; [done |].
  destruct (Ascii.eqb c sep) eqn:E.
  - apply Ascii.eqb_eq in E as ->.
    pose proof (Split_nonempty s sep).
    destruct (strings.Split s sep) as [|h t] eqn:Hs; [done |].
    simpl. by rewrite <- IH.
  - pose proof (Split_nonempty s sep).
    destruct (strings.Split s sep) as [|h t] eqn:Hs; [done |].
    rewrite <- IH. by destruct t.
Qed.

(** Replacing a byte by nothing drops exactly the occurrences of that byte. *)
Lemma ReplaceAll_empty_bytes (s : string) (old : ascii) :
  strings.bytes (strings.ReplaceAll s old "") = filter (fun c => c <> old) (strings.bytes s).
Proof.
  induction s as [|c s IH]; simpl; [done |].
  destruct (Ascii.eqb c old) eqn:E.
  - apply Ascii.eqb_eq in E as ->. rewrite append_nil_l.
    rewrite filter_cons_False by (intros H; by apply H). done.
  - apply Ascii.eqb_neq in E. simpl.
    rewrite filter_cons_True by done. by rewrite IH.
Qed.

Lemma ReplaceAll_empty_lacks (s : string) (old : ascii) :
  strings.lacks old (strings.ReplaceAll s old "") = true.
Proof.
  induction s as [|c s IH]; simpl; [done |].
  destruct (Ascii.eqb c old) eqn:E; [by rewrite append_nil_l |].
  simpl. by rewrite E, IH.
Qed.

Lemma lacks_Split (c sep : ascii) (s : string) :
  strings.lacks c s = true ->
  Forall (fun l => strings.lacks c l = true) (strings.Split s sep).
Proof.
  induction s as [|d s IH]; simpl; intros H.
  - by repeat constructor.
  - apply andb_prop in H as [Hd Hs]. specialize (IH Hs).
    destruct (Ascii.eqb d sep).
    + by constructor.
    + destruct (strings.Split s sep) as [|h t].
      * repeat constructor. simpl. by rewrite Hd.
      * inversion IH; subst. constructor; [| done]. simpl. by rewrite Hd.
Qed.

(** ** The buffer of the materialiser *)

Lemma fold_WriteString (f : string -> string) (lines : list string) (w : Buffer.t) :
  Buffer.contents
    (fold_left (fun w line => Buffer.WriteString w (f line)) lines w)
  = Buffer.contents w +:+ foldr (fun line acc => f line +:+ acc) "" lines.
Proof.
  revert w. induction lines as [|l lines IH]; intros w.
  - symmetry. apply append_nil_r.
  - cbn [fold_left foldr]. rewrite IH. cbn [Buffer.WriteString Buffer.contents].
    by rewrite append_assoc.
Qed.

Lemma Split_indented (lines : list string) :
  Forall (fun l => strings.lacks strings.LF l = true) lines ->
  strings.Split
    (foldr (fun line acc => ("  " +:+ line +:+ nl) +:+ acc) "" lines) strings.LF
  = map (fun l => "  " +:+ l) lines ++ [""].
Proof.
  induction 1 as [|l lines Hl _ IH]; [done |].
  cbn [foldr map app]. rewrite !append_assoc.
  unfold nl at 1. rewrite (append_cons strings.LF ""), append_nil_l.
  rewrite <- (append_assoc "  " l).
  rewrite Split_line; [by rewrite IH |].
  rewrite !append_cons, append_nil_l. simpl. done.
Qed.

(** The script assembled in the buffer, line by line. *)
Lemma playbook_buffer_lines (v : variant) (playbookContent : string) :
  strings.Split (Buffer.String (playbook_buffer v playbookContent)) strings.LF
  = ["- hosts: servers"] ++ between v ++ ["  tasks:"]
    ++ map (fun l => "  " +:+ l)
         (strings.Split (strings.ReplaceAll playbookContent strings.CR "") strings.LF)
    ++ [""].
Proof.
  unfold playbook_buffer, Buffer.String.
  rewrite fold_WriteString.
  set (rest := foldr _ _ _).
  assert (Hrest : strings.Split rest strings.LF
                  = map (fun l => "  " +:+ l)
                      (strings.Split (strings.ReplaceAll playbookContent strings.CR "")
                         strings.LF) ++ [""]).
  { apply Split_indented, Split_lacks. }
  destruct v.
  - change (Buffer.contents (write_skeleton main_go Buffer.zero) +:+ rest)
      with ("- hosts: servers" +:+ String strings.LF
              ("  gather_facts: false" +:+ String strings.LF
                 ("  tasks:" +:+ String strings.LF rest))).
    rewrite !Split_line by reflexivity. by rewrite Hrest.
  - change (Buffer.contents (write_skeleton part_000 Buffer.zero) +:+ rest)
      with ("- hosts: servers" +:+ String strings.LF
              ("  tasks:" +:+ String strings.LF rest)).
    rewrite !Split_line by reflexivity. by rewrite Hrest.
Qed.

Lemma inventory_buffer_contents (w : Buffer.t) (inventoryContent : string) :
  Buffer.String (inventory_buffer w inventoryContent)
  = "[servers]" +:+ nl +:+ inventoryContent.
Proof.
  unfold inventory_buffer, Buffer.String, Buffer.WriteString, Buffer.Reset.
  cbn [Buffer.contents]. by rewrite append_nil_l, append_assoc.
Qed.

(** ** Paths *)

Ltac filter_elems :=
  repeat first
    [ rewrite filter_nil
    | rewrite filter_cons_True by done
    | rewrite filter_cons_False by (let H := fresh in intros H; by apply H) ].

Lemma Join_file_inj (root id a b : string) :
  a <> "" -> b <> "" ->
  filepath.Join [root; id; a] = filepath.Join [root; id; b] -> a = b.
Proof.
  intros Ha Hb. unfold filepath.Join.
  destruct (decide (root = "")) as [-> | Hr], (decide (id = "")) as [-> | Hi];
    filter_elems; cbn [strings.Join]; intros H.
  - done.
  - apply (inj (String.append id)) in H. by simplify_eq.
  - apply (inj (String.append root)) in H. by simplify_eq.
  - apply (inj (String.append root)) in H.
    injection H as H. apply (inj (String.append id)) in H. by simplify_eq.
Qed.

Lemma site_yaml_not_inventory_ini (root id : string) :
  filepath.Join [root; id; "inventory.ini"] <> filepath.Join [root; id; "site.yaml"].
Proof. intros H. by apply Join_file_inj in H. Qed.

(** ** createTask: the materialised files *)

(** The file system after createTask, when the script was written: the
    script stays under its path whatever the later steps do. *)
Lemma createTask_site_yaml (v : variant) (env : create_env) (c : gin.Context) (w : World) :
  write_playbook env = written ->
  files (createTask v env c w).2 !! filepath.Join [rootDir w; uuid_New env; "site.yaml"]
  = Some (Buffer.String (playbook_buffer v (gin.PostForm c "playbook"))).
Proof.
  intros Hw. unfold createTask. rewrite Hw. cbn [writeFile with_files files db rootDir].
  destruct (gorm.Create_playbook _ _ _) as [[[e|] p] d]; cbn [snd with_db files rootDir].
  { apply lookup_insert_eq. }
  destruct (writeFile (write_inventory env) _ _ _) as [e fs] eqn:Hi.
  assert (Hfs : fs !! filepath.Join [rootDir w; uuid_New env; "site.yaml"]
                = Some (Buffer.String (playbook_buffer v (gin.PostForm c "playbook")))).
  { unfold writeFile in Hi.
    destruct (write_inventory env); simplify_eq; [apply lookup_insert_eq | |];
      (rewrite lookup_insert_ne by apply site_yaml_not_inventory_ini);
      apply lookup_insert_eq. }
  cbn [with_files with_db files db rootDir].
  destruct (gorm.Create_inventory _ _ _) as [[[e'|] i] d']; cbn [snd with_db files]; [done |].
  destruct (gorm.Create_task _ _ _ _) as [[[e''|] t] d'']; by cbn [snd with_db files].
Qed.

(** C3. For every submitted playbook body, the script file createTask
    writes consists of the fixed host-group header line and the task-list
    marker line (with, in main.go, the gather_facts line between them),
    followed by the lines of the body from which every carriage return was
    removed, each indented two spaces deeper than submitted. The lines are
    told apart from the code: they hold no line feed, and joined by line
    feeds they are the body without its carriage returns. *)
Theorem createTask_script_file (v : variant) (env : create_env) (c : gin.Context) (w : World) :
  write_playbook env = written ->
  ∃ script lines : _,
    files (createTask v env c w).2 !! filepath.Join [rootDir w; uuid_New env; "site.yaml"]
      = Some script
    ∧ Forall (fun l => strings.lacks strings.LF l = true) lines
    ∧ strings.bytes (strings.Join lines strings.LF)
      = filter (fun b => b <> strings.CR) (strings.bytes (gin.PostForm c "playbook"))
    ∧ strings.Split script strings.LF
      = ["- hosts: servers"] ++ between v ++ ["  tasks:"]
        ++ map (fun l => "  " +:+ l) lines ++ [""].
Proof.
  intros Hw.
  exists (Buffer.String (playbook_buffer v (gin.PostForm c "playbook"))),
         (strings.Split (strings.ReplaceAll (gin.PostForm c "playbook") strings.CR "")
            strings.LF).
  split; [by apply createTask_site_yaml |].
  split; [apply Split_lacks |].
  split; [by rewrite Join_Split, ReplaceAll_empty_bytes |].
  apply playbook_buffer_lines.
Qed.

Lemma createTask_script_file_witness :
  ∃ script lines : _,
    files (createTask part_000 demo_create (gin.request demo_form) demo_world).2
      !! filepath.Join [rootDir demo_world; uuid_New demo_create; "site.yaml"]
      = Some script
    ∧ Forall (fun l => strings.lacks strings.LF l = true) lines
    ∧ strings.bytes (strings.Join lines strings.LF)
      = filter (fun b => b <> strings.CR)
          (strings.bytes (gin.PostForm (gin.request demo_form) "playbook"))
    ∧ strings.Split script strings.LF
      = ["- hosts: servers"] ++ between part_000 ++ ["  tasks:"]
        ++ map (fun l => "  " +:+ l) lines ++ [""].
Proof.
  apply (createTask_script_file part_000 demo_create (gin.request demo_form) demo_world).
  reflexivity.
Defined.

(** The running example, evaluated: the script and the inventory written
    for the ping-test submission. *)
Example demo_files :
  let w := (createTask part_000 demo_create (gin.request demo_form) demo_world).2 in
  files w !! "/srv/data/6f1c/site.yaml"
    = Some ("- hosts: servers" +:+ nl +:+ "  tasks:" +:+ nl
            +:+ "  - name: ping" +:+ nl +:+ "    ping:" +:+ nl)
  ∧ files w !! "/srv/data/6f1c/inventory.ini"
    = Some ("[servers]" +:+ nl +:+ "host1 ansible_host=10.0.0.5")
  ∧ map Task.Status (gorm.tasks (db w)) = [Pending].
Proof. vm_compute. done. Qed.

(** C4. For every submitted inventory body, the inventory file createTask
    writes is the header line [servers] followed by the submitted body,
    byte for byte. *)
Theorem createTask_inventory_file (v : variant) (env : create_env) (c : gin.Context)
    (w : World) :
  write_playbook env = written ->
  create_playbook env = None ->
  write_inventory env = written ->
  files (createTask v env c w).2 !! filepath.Join [rootDir w; uuid_New env; "inventory.ini"]
  = Some ("[servers]" +:+ nl +:+ gin.PostForm c "inventory").
Proof.
  intros Hp Hc Hi. unfold createTask, gorm.Create_playbook.
  rewrite Hp, Hc, Hi. cbn [writeFile with_files with_db files db rootDir].
  rewrite inventory_buffer_contents.
  destruct (gorm.Create_inventory _ _ _) as [[[e'|] i] d']; cbn [snd with_db files];
    [apply lookup_insert_eq |].
  destruct (gorm.Create_task _ _ _ _) as [[[e''|] t] d'']; cbn [snd with_db files];
    apply lookup_insert_eq.
Qed.

Lemma createTask_inventory_file_witness :
  files (createTask main_go demo_create (gin.request demo_form) demo_world).2
    !! filepath.Join [rootDir demo_world; uuid_New demo_create; "inventory.ini"]
  = Some ("[servers]" +:+ nl +:+ gin.PostForm (gin.request demo_form) "inventory").
Proof.
  apply (createTask_inventory_file main_go demo_create (gin.request demo_form) demo_world);
    reflexivity.
Defined.

(** ** createTask: failing writes *)

(** When the script cannot be written, createTask answers 400 and leaves
    the database as it was. *)
Lemma createTask_script_write_fails (v : variant) (env : create_env) (c : gin.Context)
    (w : World) (e : error) :
  write_playbook env = create_fails e ->
  createTask v env c w = (gin.AbortWithError StatusBadRequest e c, w).
Proof.
  intros Hw. unfold createTask. rewrite Hw. cbn [writeFile].
  by destruct w.
Qed.

(** C7. Specified: a failed write of either artifact file aborts task
    creation, the request fails and no Task row is persisted. Observed, in
    both variants, when the inventory file cannot be created: the error
    branch of that write attaches the error and sets status 400 but does not
    return, so the Inventory row and the Task row are inserted all the same
    and the task is rendered into the body of the 400 answer. *)
Theorem createTask_inventory_write_fails (v : variant) :
  let '(c, w) := createTask v inventory_unwritable (gin.request demo_form) demo_world in
  gin.status c = Some StatusBadRequest
  ∧ gin.aborted c = true
  ∧ files w !! "/srv/data/6f1c/inventory.ini" = None
  ∧ map Inventory.Path (gorm.inventories (db w)) = ["/srv/data/6f1c/inventory.ini"]
  ∧ map Task.TaskID (gorm.tasks (db w)) = ["6f1c"]
  ∧ map Task.TaskID (gin.body c) = ["6f1c"].
Proof. destruct v; vm_compute; done. Qed.

(** ** runAnsiblePlaybook *)

(** Every timeout in the sources lies between ten and fifty-five minutes. *)
Lemma timeouts_in_range (v : variant) :
  (10 * Minute <= timeout v <= 55 * Minute)%Z
  ∧ (10 * Minute <= runner_timeout <= 55 * Minute)%Z.
Proof. destruct v; vm_compute; intuition discriminate. Qed.

(** A process that outlives the timeout is reported as such. *)
Lemma Execute_timeout (t : Duration) (p : process) :
  (t < runs_for p)%Z -> Execute t p = (Some ErrDeadlineExceeded, emits p).
Proof. intros H. unfold Execute. by apply Z.ltb_lt in H as ->. Qed.

(** main.go: a failed process (timeout, non-zero exit) or an output that
    does not parse makes runAnsiblePlaybook return an error, with the file
    system and the database untouched. *)
Lemma runAnsiblePlaybook_main_go_fails `{fmt : result_format}
    (env : run_env) (task : Task.t) (w : World) :
  (timeout main_go < runs_for (proc env))%Z
  ∨ exit_code (proc env) <> 0%Z
  ∨ (∃ e, ParseJSONResultsStream (emits (proc env)) = inr e) ->
  ∃ e, runAnsiblePlaybook main_go env task w = (Some e, w).
Proof.
  intros H. unfold runAnsiblePlaybook, Execute.
  destruct (timeout main_go <? runs_for (proc env))%Z eqn:Ht; [by eexists |].
  destruct (exit_code (proc env) =? 0)%Z eqn:Hx; [| by eexists].
  destruct H as [H | [H | [e H]]].
  - apply Z.ltb_lt in H. congruence.
  - apply Z.eqb_eq in Hx. done.
  - rewrite H. by eexists.
Qed.

Lemma runAnsiblePlaybook_main_go_timeout `{fmt : result_format}
    (env : run_env) (task : Task.t) (w : World) :
  (timeout main_go < runs_for (proc env))%Z ->
  runAnsiblePlaybook main_go env task w = (Some ErrDeadlineExceeded, w).
Proof.
  intros H. unfold runAnsiblePlaybook. by rewrite (Execute_timeout _ _ H).
Qed.


(** main.go, evaluated on a process that overruns the timeout: the task
    ends Failed, the timeout message is set on the worker's copy of the task,
    and no result document is written. (The error column stays empty, see
    C6.) *)
Example timeout_main_go :
  ∃ w, worker_run (fmt := brace_format) main_go 0 (job "6f1c" (overrun main_go) 200%Z)
         at_recv (demo_created main_go) = Some (at_recv, w)
       ∧ map Task.Status (gorm.tasks (db w)) = [Failed]
       ∧ files w !! "/srv/data/6f1c/result.json" = None.
Proof. eexists. split; [vm_compute; reflexivity |]. vm_compute. done. Qed.

(** C1. Specified: an execution that exceeds the timeout ends in Failed
    with a timeout message, never in Succeeded. Observed in part_000, on the
    demo task with a process that runs one minute past the thirty-minute
    timeout: runAnsiblePlaybook prints the deadline error of the execution
    and goes on to return nil, so the worker takes its success branch and
    the task ends Succeeded with an empty error. *)
Theorem timeout_part_000_ends_succeeded :
  (timeout part_000 < runs_for (proc (overrun part_000)))%Z
  ∧ Execute (timeout part_000) (proc (overrun part_000))
    = (Some ErrDeadlineExceeded, "PLAY [servers] ***")
  ∧ ∃ w, worker_run (fmt := brace_format) part_000 0 (job "6f1c" (overrun part_000) 200%Z)
           at_recv (demo_created part_000) = Some (at_recv, w)
         ∧ outcomes w = [(Succeeded, "")]
         ∧ In (log_exec_failed "6f1c" ErrDeadlineExceeded) (output w).
Proof.
  split; [done |]. split; [done |].
  eexists. split; [vm_compute; reflexivity |]. vm_compute. auto.
Qed.

(** C2. Specified: when the process fails, runAnsiblePlaybook returns an
    error and writes no result document. Observed in part_000, on the demo
    task with a process that exits with status 2: the call returns nil and
    writes the captured output as result.json, which was not there before.
    (The slip is the one of C1.) *)
Theorem failure_part_000_returns_nil :
  let task := (gorm.First_task None "6f1c" (db (demo_created part_000))).2 in
  let '(err, w) :=
    runAnsiblePlaybook (fmt := brace_format) part_000 exits_nonzero task
      (demo_created part_000) in
  Execute (timeout part_000) (proc exits_nonzero)
    = (Some (ErrExitStatus 2), emits (proc exits_nonzero))
  ∧ err = None
  ∧ files (demo_created part_000) !! "/srv/data/6f1c/result.json" = None
  ∧ files w !! "/srv/data/6f1c/result.json" = Some (emits (proc exits_nonzero)).
Proof. vm_compute. done. Qed.

(** ** The database writes of the worker *)

(** What an update does to the row at a position: nothing, or the
    assignment of the given values when the statement succeeded and the row
    matches the condition. *)
Lemma Updates_lookup (fault : option error) (cond : Task.t -> bool) (u : Task.t)
    (d d' : gorm.DB) (e : option error) (i : nat) (r : Task.t) :
  gorm.Updates fault cond u d = (e, d') ->
  gorm.tasks d !! i = Some r ->
  gorm.tasks d' !! i = Some r
  ∨ (e = None ∧ cond r = true ∧ gorm.tasks d' !! i = Some (gorm.assign u r)).
Proof.
  unfold gorm.Updates. intros H Hr.
  destruct fault; simplify_eq; [by left |].
  cbn [gorm.tasks]. rewrite list_lookup_fmap, Hr. cbn.
  destruct (cond r) eqn:Hc; [by right | by left].
Qed.

Lemma Updates_length (fault : option error) (cond : Task.t -> bool) (u : Task.t)
    (d d' : gorm.DB) (e : option error) :
  gorm.Updates fault cond u d = (e, d') ->
  length (gorm.tasks d') = length (gorm.tasks d).
Proof.
  unfold gorm.Updates. intros H.
  destruct fault; simplify_eq; [done |]. cbn [gorm.tasks]. apply length_fmap.
Qed.

(** An update touches the task table only. *)
Lemma Updates_frame (fault : option error) (cond : Task.t -> bool) (u : Task.t)
    (d d' : gorm.DB) (e : option error) :
  gorm.Updates fault cond u d = (e, d') ->
  gorm.users d' = gorm.users d
  ∧ gorm.inventories d' = gorm.inventories d
  ∧ gorm.playbooks d' = gorm.playbooks d.
Proof. unfold gorm.Updates. intros H. by destruct fault; simplify_eq. Qed.

(** The values updateTask passes: status and time, and in part_000 the
    error; every other field is the zero value, hence not assigned. *)
Lemma updateTask_lookup (v : variant) (fault : option error) (now : Time)
    (task : Task.t) (w w' : World) (e : option error) (i : nat) (r : Task.t) :
  updateTask v fault now task w = (e, w') ->
  gorm.tasks (db w) !! i = Some r ->
  ∃ r', gorm.tasks (db w') !! i = Some r'
    ∧ Task.ID r' = Task.ID r ∧ Task.TaskID r' = Task.TaskID r
    ∧ Task.Name r' = Task.Name r ∧ Task.PlaybookID r' = Task.PlaybookID r
    ∧ Task.InventoryID r' = Task.InventoryID r ∧ Task.UserID r' = Task.UserID r
    ∧ (r' = r
       ∨ (e = None ∧ Task.ID r = Task.ID task
          ∧ Task.UpdatedAt r' = now
          ∧ Task.Status r' = (if N.eqb (Task.Status task) 0 then Task.Status r
                              else Task.Status task)
          ∧ Task.Error r' = match v with
                            | main_go => Task.Error r
                            | part_000 =>
                                if String.eqb (Task.Error task) "" then Task.Error r
                                else Task.Error task
                            end)).
Proof.
  unfold updateTask. intros H Hr.
  destruct (gorm.Updates _ _ _ _) as [e' d'] eqn:Hu.
  destruct (Updates_lookup _ _ _ _ _ _ _ _ Hu Hr) as [Hs | (-> & Hc & Hs)].
  - exists r. destruct e'; simplify_eq; cbn [db with_db]; eauto 10.
  - simplify_eq. apply N.eqb_eq in Hc.
    eexists. split; [exact Hs |].
    destruct v; cbn; repeat split; auto; right; repeat split; auto.
Qed.

(** part_000 keeps the message of a failed run: a non-empty error on the
    worker's copy of the task is the error column after updateTask. *)
Lemma updateTask_part_000_keeps_error (fault : option error) (now : Time)
    (task : Task.t) (w w' : World) (i : nat) (r : Task.t) :
  updateTask part_000 fault now task w = (None, w') ->
  gorm.tasks (db w) !! i = Some r ->
  Task.ID r = Task.ID task ->
  Task.Error task <> "" ->
  ∃ r', gorm.tasks (db w') !! i = Some r' ∧ Task.Error r' = Task.Error task.
Proof.
  unfold updateTask, gorm.Updates. intros H Hr Hid Herr.
  destruct fault; simplify_eq. cbn [db with_db gorm.tasks].
  rewrite list_lookup_fmap, Hr. cbn [fmap option_fmap option_map].
  rewrite Hid, N.eqb_refl. eexists. split; [reflexivity |].
  cbn. by apply String.eqb_neq in Herr as ->.
Qed.

(** C6. Specified: updateTask writes status, time and error, so that the
    message of a failed execution is kept on the row. Observed in main.go, on
    the demo task with a process that exits with status 2: updateTask passes
    status and time only, the message set on the worker's copy of the task
    never reaches the error column, and the row ends Failed with an empty
    error. *)
Theorem updateTask_main_go_drops_error :
  ∃ task w w',
    worker_run (fmt := brace_format) main_go 0
      [recv "6f1c"; db_answer None 200%Z; db_answer None 201%Z; run_answer exits_nonzero]
      at_recv (demo_created main_go)
    = Some (at_update task (Some (ErrExitStatus 2)), w)
    ∧ Error_text (ErrExitStatus 2) = "exit status"
    ∧ worker_step (fmt := brace_format) main_go 0 (at_update task (Some (ErrExitStatus 2)))
        (db_answer None 202%Z) w = Some (at_recv, w')
    ∧ outcomes w' = [(Failed, "")].
Proof.
  do 3 eexists. split; [vm_compute; reflexivity |].
  split; [done |]. split; [vm_compute; reflexivity |]. vm_compute. done.
Qed.

(** runAnsiblePlaybook does not touch the database. *)
Lemma runAnsiblePlaybook_db `{fmt : result_format}
    (v : variant) (env : run_env) (task : Task.t) (w : World) :
  db (runAnsiblePlaybook v env task w).2 = db w.
Proof.
  unfold runAnsiblePlaybook. destruct v.
  - destruct (Execute _ _) as [[e|] buff]; [done |].
    destruct (ParseJSONResultsStream buff); [| done].
    destruct (MarshalIndent _); [| done].
    destruct (os.WriteFile _ _ _ _) as [[e|] fs]; done.
  - destruct (Execute _ _) as [[e|] buff];
      destruct (read_all env); try done;
      destruct (os.WriteFile _ _ _ _) as [[e'|] fs]; done.
Qed.

(** C5. Every step of a worker leaves the status of every task row as it
    is, or moves it to Running, or moves it to Succeeded or Failed; no step
    writes Pending or a value outside 0..3. A row moves to Running only in
    the step that marks the task of the run-trigger the worker holds (the
    row's task id is the trigger's), a step that is reached only through the
    lookup of that id, which is reached only by receiving that id from the
    channel; it moves to Succeeded or Failed only in the final update. *)
Theorem status_moves_forward `{fmt : result_format}
    (v : variant) (index : nat) (p p' : pc) (a : answer) (w w' : World) :
  worker_step v index p a w = Some (p', w') ->
  (∀ taskId, p' = at_first taskId -> p = at_recv ∧ a = recv taskId)
  ∧ (∀ taskId task, p' = at_mark taskId task -> p = at_first taskId)
  ∧ length (gorm.tasks (db w')) = length (gorm.tasks (db w))
  ∧ ∀ i r, gorm.tasks (db w) !! i = Some r ->
      ∃ r', gorm.tasks (db w') !! i = Some r'
        ∧ Task.TaskID r' = Task.TaskID r
        ∧ (Task.Status r' = Task.Status r
           ∨ (Task.Status r' = Running ∧ ∃ task, p = at_mark (Task.TaskID r) task)
           ∨ ((Task.Status r' = Succeeded ∨ Task.Status r' = Failed)
              ∧ ∃ task err, p = at_update task err)).
Proof.
  intros H.
  destruct p as [|taskId|taskId task|task|task err|], a as [tid| |fault now|env];
    cbn [worker_step] in H; try discriminate.
  - (* receive *)
    simplify_eq. repeat split; try done; try (intros; by simplify_eq).
    intros i r Hr. exists r. auto.
  - (* closed *)
    simplify_eq. repeat split; try done. intros i r Hr. exists r. auto.
  - (* lookup *)
    destruct (gorm.First_task fault taskId (db w)) as [[e|] t]; simplify_eq;
      (repeat split; try done; try (intros; by simplify_eq));
      intros i r Hr; exists r; auto.
  - (* mark running *)
    destruct (gorm.Updates _ _ _ _) as [[e|] d] eqn:Hu; simplify_eq.
    + repeat split; try done. intros i r Hr. exists r. auto.
    + cbn [db with_db]. repeat split; try done.
      { eapply Updates_length, Hu. }
      intros i r Hr.
      destruct (Updates_lookup _ _ _ _ _ _ _ _ Hu Hr) as [Hs | (_ & Hc & Hs)].
      * exists r. auto.
      * eexists. split; [exact Hs |]. apply String.eqb_eq in Hc. subst taskId.
        split; [done |]. right; left. split; [done | by eexists].
  - (* run *)
    destruct (runAnsiblePlaybook v env task w) as [e w1] eqn:Hrun. simplify_eq.
    pose proof (runAnsiblePlaybook_db v env task w) as Hdb. rewrite Hrun in Hdb.
    cbn [snd] in Hdb. rewrite Hdb.
    repeat split; try done. intros i r Hr. exists r. auto.
  - (* final update *)
    match type of H with
    | context [updateTask _ _ _ ?t _] => set (task' := t) in H
    end.
    destruct (updateTask _ _ _ _ _) as [e w1] eqn:Hu.
    assert (p' = at_recv ∧ db w' = db w1) as [-> Hdb]
      by (destruct e; by simplify_eq).
    rewrite Hdb. clear H Hdb.
    repeat split; try done.
    { unfold updateTask in Hu.
      destruct (gorm.Updates _ _ _ _) as [[e1|] d] eqn:Hu'; simplify_eq; [done |].
      cbn [db with_db]. eapply Updates_length, Hu'. }
    intros i r Hr.
    destruct (updateTask_lookup _ _ _ _ _ _ _ _ _ Hu Hr)
      as (r' & Hr' & _ & Htid & _ & _ & _ & _ & [-> | (_ & _ & _ & Hst & _)]).
    + exists r. auto.
    + exists r'. split; [done |]. split; [done |].
      right; right. split; [| by eauto].
      rewrite Hst. subst task'. destruct err; [by right |]. destruct v; by left.
Qed.

Lemma status_moves_forward_witness :
  (∀ taskId, (demo_marked main_go).1 = at_first taskId ->
     demo_at_mark main_go = at_recv ∧ db_answer None 200%Z = recv taskId)
  ∧ (∀ taskId task, (demo_marked main_go).1 = at_mark taskId task ->
       demo_at_mark main_go = at_first taskId)
  ∧ length (gorm.tasks (db (demo_marked main_go).2))
    = length (gorm.tasks (db (demo_created main_go)))
  ∧ ∀ i r, gorm.tasks (db (demo_created main_go)) !! i = Some r ->
      ∃ r', gorm.tasks (db (demo_marked main_go).2) !! i = Some r'
        ∧ Task.TaskID r' = Task.TaskID r
        ∧ (Task.Status r' = Task.Status r
           ∨ (Task.Status r' = Running ∧ ∃ task, demo_at_mark main_go = at_mark (Task.TaskID r) task)
           ∨ ((Task.Status r' = Succeeded ∨ Task.Status r' = Failed)
              ∧ ∃ task err, demo_at_mark main_go = at_update task err)).
Proof.
  apply (status_moves_forward (fmt := brace_format) main_go 0 (demo_at_mark main_go)
           (demo_marked main_go).1 (db_answer None 200%Z) (demo_created main_go)
           (demo_marked main_go).2).
  reflexivity.
Defined.

(** The demo task over one job without failures: Pending, then Running
    once marked, then Succeeded. *)
Example demo_status_path :
  ∃ w1 w2,
    worker_run (fmt := brace_format) main_go 0 [recv "6f1c"; db_answer None 200%Z;
      db_answer None 201%Z] at_recv (demo_created main_go) = Some (w1.1, w1.2)
    ∧ worker_run (fmt := brace_format) main_go 0 [run_answer succeeds; db_answer None 202%Z]
        w1.1 w1.2 = Some (at_recv, w2)
    ∧ map Task.Status (gorm.tasks (db (demo_created main_go))) = [Pending]
    ∧ map Task.Status (gorm.tasks (db w1.2)) = [Running]
    ∧ map Task.Status (gorm.tasks (db w2)) = [Succeeded].
Proof.
  eexists (_, _), _. cbn [fst snd].
  split; [vm_compute; reflexivity |]. split; [vm_compute; reflexivity |].
  vm_compute. done.
Qed.

(** ** The worker loop *)

(** The loop returns only on a closed channel. *)
Lemma worker_stops_only_when_closed `{fmt : result_format}
    (v : variant) (index : nat) (answers : list answer) (p : pc) (w w' : World) :
  worker_run v index answers p w = Some (stopped, w') ->
  p = stopped ∨ recv_closed ∈ answers.
Proof.
  revert p w. induction answers as [|a answers IH]; intros p w H; cbn [worker_run] in H.
  - left. by simplify_eq.
  - right. destruct (worker_step v index p a w) as [[p1 w1]|] eqn:Hs; [| done].
    destruct (IH _ _ H) as [-> | Hin]; [| by apply list_elem_of_further].
    assert (a = recv_closed) as ->; [| by apply list_elem_of_here].
    destruct p, a; cbn [worker_step] in Hs; try done;
      repeat match type of Hs with
             | context [let '(_, _) := ?x in _] => destruct x as [[?|] ?]
             end; done.
Qed.

(** C8. When the database call of a step fails (the lookup of the dequeued
    id, the update that marks the task running, or the final update), the
    worker prints a line that reports the error, changes nothing else, and is
    back at its receive, where the next queue entry is taken; whatever
    follows, the loop does not return unless the channel is closed. *)
Theorem worker_survives_database_errors `{fmt : result_format}
    (v : variant) (index : nat) (p : pc) (fault : option error) (now : Time)
    (w : World) (e : error) :
  fails_with p fault w e ->
  ∃ line,
    reports line e
    ∧ worker_step v index p (db_answer fault now) w = Some (at_recv, print line w)
    ∧ (∀ next, worker_step v index at_recv (recv next) (print line w)
               = Some (at_first next, print line w))
    ∧ (∀ answers w', worker_run v index (db_answer fault now :: answers) p w
                     = Some (stopped, w') -> recv_closed ∈ answers).
Proof.
  intros Hf.
  assert (∃ line, reports line e
            ∧ worker_step v index p (db_answer fault now) w
              = Some (at_recv, print line w)) as (line & Hl & Hs).
  { destruct p as [|taskId|taskId task|task|task err|]; cbn [fails_with] in Hf; try done.
    - exists (log_taskid_error taskId e). split; [done |]. cbn [worker_step].
      destruct (gorm.First_task fault taskId (db w)) as [e' t]. cbn [fst] in Hf. by subst.
    - subst fault. exists (log_taskid_error taskId e). done.
    - subst fault. eexists (log_task_error _ e). split; [done |].
      cbn [worker_step updateTask gorm.Updates]. reflexivity. }
  exists line. repeat split; try done.
  intros answers w' Hrun. cbn [worker_run] in Hrun. rewrite Hs in Hrun.
  by destruct (worker_stops_only_when_closed _ _ _ _ _ _ Hrun).
Qed.

Lemma worker_survives_database_errors_witness :
  ∃ line,
    reports line (ErrDatabase "database is locked")
    ∧ worker_step (fmt := brace_format) part_000 1 (demo_at_mark part_000)
        (db_answer (Some (ErrDatabase "database is locked")) 200%Z) (demo_created part_000)
      = Some (at_recv, print line (demo_created part_000))
    ∧ (∀ next, worker_step (fmt := brace_format) part_000 1 at_recv (recv next)
                 (print line (demo_created part_000))
               = Some (at_first next, print line (demo_created part_000)))
    ∧ (∀ answers w',
         worker_run (fmt := brace_format) part_000 1
           (db_answer (Some (ErrDatabase "database is locked")) 200%Z :: answers)
           (demo_at_mark part_000) (demo_created part_000)
         = Some (stopped, w') -> recv_closed ∈ answers).
Proof.
  apply (worker_survives_database_errors (fmt := brace_format) part_000 1
           (demo_at_mark part_000) (Some (ErrDatabase "database is locked")) 200%Z
           (demo_created part_000) (ErrDatabase "database is locked")).
  reflexivity.
Defined.

(** A worker whose first job hits a failing lookup, and whose second job is
    the demo task: the failure is printed and the second job runs to its
    end. *)
Example demo_failing_then_working :
  ∃ w, worker_run (fmt := brace_format) part_000 0
         ([recv "no-such-task"; db_answer None 150%Z] ++ job "6f1c" succeeds 200%Z)
         at_recv (demo_created part_000) = Some (at_recv, w)
       ∧ head (output w) = Some (log_taskid_error "no-such-task" ErrRecordNotFound)
       ∧ outcomes w = [(Succeeded, "")].
Proof. eexists. split; [vm_compute; reflexivity |]. vm_compute. done. Qed.

(** ** The dispatch queue *)

Lemma pool_invariant_started (w : World) : pool_invariant (main_started w).
Proof. done. Qed.

Lemma pool_invariant_step `{fmt : result_format}
    (v : variant) (e : event) (s s' : system) :
  pool_invariant s -> system_step v e s = Some s' -> pool_invariant s'.
Proof.
  intros (Hcap & Hbuf & Hlen) H. unfold pool_invariant.
  destruct e; cbn [system_step] in H;
    repeat match type of H with
           | context [match ?x with _ => _ end] =>
               let E := fresh "E" in destruct x eqn:E; try discriminate
           end;
    simplify_eq; cbn; rewrite ?length_insert; try done.
  lia.
Qed.

Lemma pool_invariant_run `{fmt : result_format}
    (v : variant) (events : list event) (s s' : system) :
  pool_invariant s -> system_run v events s = Some s' -> pool_invariant s'.
Proof.
  revert s. induction events as [|e events IH]; intros s Hinv H; cbn [system_run] in H.
  - by simplify_eq.
  - destruct (system_step v e s) as [s1|] eqn:Hs; [| done].
    eapply IH; [| exact H]. eapply pool_invariant_step; eauto.
Qed.

(** A send completes only in a handoff to a worker that waits in its
    receive. *)
Lemma send_completes_by_handoff `{fmt : result_format}
    (v : variant) (e : event) (s s' : system) (i : nat) (taskId : string) :
  pool_invariant s ->
  closed (queue s) = false ->
  system_step v e s = Some s' ->
  requests s !! i = Some (sending taskId) ->
  requests s' !! i = Some (sending taskId)
  ∨ ∃ k, e = ev_handoff i k
         ∧ workers s !! k = Some at_recv
         ∧ workers s' !! k = Some (at_first taskId)
         ∧ requests s' !! i = Some (redirected taskId).
Proof.
  intros (Hcap & Hbuf & Hlen) Hopen H Hi.
  destruct e as [tid|j k|j|k|k a| |k|j]; cbn [system_step] in H.
  - simplify_eq. left. cbn. by apply lookup_app_l_Some.
  - destruct (requests s !! j) as [[tid| |]|] eqn:Hj; try done.
    destruct (workers s !! k) as [[| | | | |]|] eqn:Hk; try done.
    rewrite Hbuf, Hopen in H. cbn [worker_step] in H. simplify_eq.
    destruct (decide (i = j)) as [-> | Hne].
    + right. exists k. simplify_eq. repeat split; try done.
      * cbn. apply list_lookup_insert_eq. apply lookup_lt_Some in Hk. done.
      * cbn. apply list_lookup_insert_eq. by apply lookup_lt_Some in Hj.
    + left. cbn. by rewrite list_lookup_insert_ne.
  - destruct (requests s !! j) as [[tid| |]|]; try done.
    rewrite Hopen in H. rewrite Hcap in H. by case_decide; [lia |].
  - destruct (workers s !! k) as [[| | | | |]|]; try done. by rewrite Hbuf in H.
  - left.
    repeat match type of H with
           | context [match ?x with _ => _ end] => destruct x; try discriminate
           end; by simplify_eq.
  - rewrite Hopen in H. simplify_eq. by left.
  - destruct (workers s !! k) as [[| | | | |]|]; try done.
    by rewrite Hbuf, Hopen in H.
  - destruct (requests s !! j) as [[tid| |]|]; try done. by rewrite Hopen in H.
Qed.

(** C9. In every state the running server reaches, the dispatch channel is
    unbuffered and holds nothing, and it is consumed by two workers, so at
    most two executions are under way. While the channel is open, a request
    that is at its send stays there through every move of the system except
    the one in which a worker waiting in its receive takes the id: the send
    completes only then, the request is never dropped, and while no worker
    waits in its receive it stays blocked. *)
Theorem run_triggers_block_until_received `{fmt : result_format}
    (v : variant) (w : World) (events : list event) (s : system) :
  system_run v events (main_started w) = Some s ->
  cap (queue s) = 0 ∧ buf (queue s) = []
  ∧ length (workers s) = 2
  ∧ length (filter (fun p => executing p = true) (workers s)) <= 2
  ∧ ∀ e s' i taskId,
      closed (queue s) = false ->
      system_step v e s = Some s' ->
      requests s !! i = Some (sending taskId) ->
      (requests s' !! i = Some (sending taskId)
       ∨ ∃ k, e = ev_handoff i k
              ∧ workers s !! k = Some at_recv
              ∧ workers s' !! k = Some (at_first taskId)
              ∧ requests s' !! i = Some (redirected taskId))
      ∧ ((∀ k, workers s !! k <> Some at_recv) ->
         requests s' !! i = Some (sending taskId)).
Proof.
  intros Hrun.
  pose proof (pool_invariant_run v events _ _ (pool_invariant_started w) Hrun) as Hinv.
  destruct Hinv as (Hcap & Hbuf & Hlen).
  repeat split; try done.
  { rewrite <- Hlen. apply length_filter. }
  - by eapply send_completes_by_handoff.
  - intros Hbusy.
    destruct (send_completes_by_handoff v e s s' i taskId) as [? | (k & _ & Hk & _)];
      try done.
    by destruct (Hbusy k).
Qed.

Lemma run_triggers_block_until_received_witness :
  cap (queue demo_system) = 0 ∧ buf (queue demo_system) = []
  ∧ length (workers demo_system) = 2
  ∧ length (filter (fun p => executing p = true) (workers demo_system)) <= 2
  ∧ ∀ e s' i taskId,
      closed (queue demo_system) = false ->
      system_step (fmt := brace_format) main_go e demo_system = Some s' ->
      requests demo_system !! i = Some (sending taskId) ->
      (requests s' !! i = Some (sending taskId)
       ∨ ∃ k, e = ev_handoff i k
              ∧ workers demo_system !! k = Some at_recv
              ∧ workers s' !! k = Some (at_first taskId)
              ∧ requests s' !! i = Some (redirected taskId))
      ∧ ((∀ k, workers demo_system !! k <> Some at_recv) ->
         requests s' !! i = Some (sending taskId)).
Proof.
  apply (run_triggers_block_until_received (fmt := brace_format) main_go
           (demo_created main_go) demo_events demo_system).
  reflexivity.
Defined.

(** The demo system, evaluated: both workers hold a job, the third request
    is still at its send, and no handoff of it is possible. *)
Example demo_system_blocked :
  requests demo_system = [redirected "6f1c"; redirected "6f1c"; sending "77aa"]
  ∧ workers demo_system = [at_first "6f1c"; at_first "6f1c"]
  ∧ system_step (fmt := brace_format) main_go (ev_handoff 2 0) demo_system = None
  ∧ system_step (fmt := brace_format) main_go (ev_handoff 2 1) demo_system = None
  ∧ system_step (fmt := brace_format) main_go (ev_park 2) demo_system = None.
Proof. vm_compute. done. Qed.

(** * Further properties of the code *)

(** ** createTask *)

Ltac createTask_cases env :=
  unfold createTask, create_succeeds,
    gorm.Create_playbook, gorm.Create_inventory, gorm.Create_task, writeFile;
  destruct env as [uuid [e1|e1 n1|] [e2|] [e3|e3 n3|] [e4|] [e5|] now];
  cbn -[playbook_buffer inventory_buffer filepath.Join gorm.next_id].

(** A fresh request is answered 200, with the created task as its one
    document, exactly when no step of createTask failed; otherwise it is
    answered 400 and marked aborted. *)
Theorem createTask_answer (v : variant) (env : create_env) (form : string -> string)
    (w : World) :
  let c := (createTask v env (gin.request form) w).1 in
  (create_succeeds env
   ∧ gin.status c = Some StatusOK ∧ gin.aborted c = false
   ∧ ∃ task, gin.body c = [task] ∧ Task.TaskID task = uuid_New env
             ∧ Task.Status task = Pending)
  ∨ (¬ create_succeeds env
     ∧ gin.status c = Some StatusBadRequest ∧ gin.aborted c = true).
Proof.
  createTask_cases env;
    first [ right; split; [intros (? & ? & ? & ? & ?); discriminate | done]
          | left; repeat split; eauto ].
Qed.

(** createTask only appends: the rows that were there stay as they are, at
    most one row is added to each of the three tables (a task row is
    Pending, owned by user 1, without error and carries the uuid drawn), the
    user table, the data directory setting and the log are untouched, and no
    file other than the two artifact files of the new task is written. *)
Theorem createTask_appends (v : variant) (env : create_env) (c : gin.Context) (w : World) :
  let w' := (createTask v env c w).2 in
  gorm.users (db w') = gorm.users (db w)
  ∧ (∃ ps, gorm.playbooks (db w') = gorm.playbooks (db w) ++ ps ∧ length ps <= 1)
  ∧ (∃ ivs, gorm.inventories (db w') = gorm.inventories (db w) ++ ivs ∧ length ivs <= 1)
  ∧ (∃ ts, gorm.tasks (db w') = gorm.tasks (db w) ++ ts ∧ length ts <= 1
           ∧ Forall (fun t => Task.TaskID t = uuid_New env ∧ Task.Status t = Pending
                              ∧ Task.UserID t = 1%N ∧ Task.Error t = "") ts)
  ∧ rootDir w' = rootDir w ∧ output w' = output w
  ∧ ∀ path,
      path <> filepath.Join [rootDir w; uuid_New env; "site.yaml"] ->
      path <> filepath.Join [rootDir w; uuid_New env; "inventory.ini"] ->
      files w' !! path = files w !! path.
Proof.
  destruct w as [d fs root out].
  createTask_cases env;
    (repeat split; try done;
     try (by exists []; rewrite app_nil_r; split; [| cbn; lia]);
     try (by eexists [_]; split; [reflexivity | cbn; lia]);
     try (by exists []; rewrite app_nil_r; repeat split; [cbn; lia | constructor]);
     try (by eexists [_]; repeat split; [cbn; lia | repeat constructor]);
     try (intros path H1 H2; by rewrite ?lookup_insert_ne by done)).
Qed.

(** When the script cannot be written (not created, or not written to its
    end), createTask stops there: the request is aborted with that error and
    status 400, the database is as before, and no file other than the script
    is touched. *)
Theorem createTask_script_failure (v : variant) (env : create_env) (c : gin.Context)
    (w : World) :
  write_playbook env <> written ->
  let '(c', w') := createTask v env c w in
  (∃ e, (write_playbook env = create_fails e ∨ ∃ n, write_playbook env = write_fails e n)
        ∧ c' = gin.AbortWithError StatusBadRequest e c)
  ∧ db w' = db w
  ∧ ∀ path, path <> filepath.Join [rootDir w; uuid_New env; "site.yaml"] ->
            files w' !! path = files w !! path.
Proof.
  intros Hw. unfold createTask, writeFile.
  destruct (write_playbook env) as [e|e n|]; [| | done]; cbn [with_files db files].
  - split; [by eauto |]. done.
  - split; [by eauto 6 |]. split; [done |].
    intros path Hp. by rewrite lookup_insert_ne.
Qed.

Lemma createTask_script_failure_witness :
  let '(c', w') :=
    createTask main_go
      {| uuid_New := "6f1c"; write_playbook := write_fails (ErrIO "no space left") 7;
         create_playbook := None; write_inventory := written; create_inventory := None;
         create_task := None; create_now := 100%Z |}
      (gin.request demo_form) demo_world in
  (∃ e, (write_fails (ErrIO "no space left") 7 = create_fails e
         ∨ ∃ n, write_fails (ErrIO "no space left") 7 = write_fails e n)
        ∧ c' = gin.AbortWithError StatusBadRequest e (gin.request demo_form))
  ∧ db w' = db demo_world
  ∧ ∀ path, path <> filepath.Join [rootDir demo_world; "6f1c"; "site.yaml"] ->
            files w' !! path = files demo_world !! path.
Proof.
  apply (createTask_script_failure main_go
           {| uuid_New := "6f1c"; write_playbook := write_fails (ErrIO "no space left") 7;
              create_playbook := None; write_inventory := written;
              create_inventory := None; create_task := None; create_now := 100%Z |}
           (gin.request demo_form) demo_world).
  discriminate.
Defined.

(** When the script was written but the Playbook row cannot be inserted,
    createTask stops before the inventory: no row is added, the inventory
    file is not written, and the script stays behind on disk. *)
Theorem createTask_playbook_row_failure (v : variant) (env : create_env)
    (c : gin.Context) (w : World) (e : error) :
  write_playbook env = written ->
  create_playbook env = Some e ->
  let '(c', w') := createTask v env c w in
  c' = gin.AbortWithError StatusBadRequest e c
  ∧ db w' = db w
  ∧ files w' = <[filepath.Join [rootDir w; uuid_New env; "site.yaml"]
                 := Buffer.String (playbook_buffer v (gin.PostForm c "playbook"))]> (files w).
Proof.
  intros Hw Hc. unfold createTask, writeFile, gorm.Create_playbook.
  rewrite Hw, Hc. cbn [with_files with_db db files]. by destruct w, (db _).
Qed.

Lemma createTask_playbook_row_failure_witness :
  let '(c', w') :=
    createTask part_000
      {| uuid_New := "6f1c"; write_playbook := written;
         create_playbook := Some (ErrDatabase "database is locked");
         write_inventory := written; create_inventory := None;
         create_task := None; create_now := 100%Z |}
      (gin.request demo_form) demo_world in
  c' = gin.AbortWithError StatusBadRequest (ErrDatabase "database is locked")
         (gin.request demo_form)
  ∧ db w' = db demo_world
  ∧ files w' = <[filepath.Join [rootDir demo_world; "6f1c"; "site.yaml"]
                 := Buffer.String
                      (playbook_buffer part_000
                         (gin.PostForm (gin.request demo_form) "playbook"))]>
                 (files demo_world).
Proof.
  apply (createTask_playbook_row_failure part_000
           {| uuid_New := "6f1c"; write_playbook := written;
              create_playbook := Some (ErrDatabase "database is locked");
              write_inventory := written; create_inventory := None;
              create_task := None; create_now := 100%Z |}
           (gin.request demo_form) demo_world (ErrDatabase "database is locked"));
    reflexivity.
Defined.

(** ** From createTask to the lookups *)

Lemma foldr_max_ge (ids : list N) (x : N) : x ∈ ids -> (x <= foldr N.max 0%N ids)%N.
Proof.
  induction ids as [|y ids IH]; intros Hx; [by apply not_elem_of_nil in Hx |].
  cbn [foldr]. apply elem_of_cons in Hx as [-> | Hx]; [lia |].
  specialize (IH Hx). lia.
Qed.

(** The id given to a new row is larger than every id of the table. *)
Lemma next_id_fresh (ids : list N) (x : N) : x ∈ ids -> (x < gorm.next_id ids)%N.
Proof. intros Hx. apply foldr_max_ge in Hx. unfold gorm.next_id. lia. Qed.

Lemma find_snoc_fresh {A} (f : A -> bool) (l : list A) (a : A) :
  (∀ x, x ∈ l -> f x = false) -> f a = true -> find f (l ++ [a]) = Some a.
Proof.
  intros Hl Ha. induction l as [|x l IH]; cbn [find app].
  - by rewrite Ha.
  - rewrite (Hl x) by apply list_elem_of_here.
    apply IH. intros y Hy. apply Hl. by apply list_elem_of_further.
Qed.

Lemma find_absent {A} (f : A -> bool) (l : list A) :
  (∀ x, x ∈ l -> f x = false) -> find f l = None.
Proof.
  intros Hl. induction l as [|x l IH]; [done |]. cbn [find].
  rewrite (Hl x) by apply list_elem_of_here.
  apply IH. intros y Hy. apply Hl. by apply list_elem_of_further.
Qed.

Lemma find_by_next_id {A} (ID : A -> N) (l : list A) (a : A) :
  ID a = gorm.next_id (map ID l) ->
  find (fun x => N.eqb (ID x) (ID a)) (l ++ [a]) = Some a.
Proof.
  intros Ha. apply find_snoc_fresh; [| apply N.eqb_refl].
  intros x Hx. apply N.eqb_neq. rewrite Ha.
  assert (ID x ∈ map ID l) as Hin by (apply list_elem_of_In, in_map, list_elem_of_In, Hx).
  apply next_id_fresh in Hin. lia.
Qed.

Lemma createTask_inventory_ini (v : variant) (env : create_env) (c : gin.Context)
    (w : World) :
  write_playbook env = written ->
  create_playbook env = None ->
  write_inventory env = written ->
  files (createTask v env c w).2 !! filepath.Join [rootDir w; uuid_New env; "inventory.ini"]
  = Some ("[servers]" +:+ nl +:+ gin.PostForm c "inventory").
Proof.
  intros Hp Hc Hi. unfold createTask, gorm.Create_playbook, writeFile.
  rewrite Hp, Hc, Hi. cbn [with_files with_db files db rootDir].
  rewrite inventory_buffer_contents.
  destruct (gorm.Create_inventory _ _ _) as [[[e'|] i] d']; cbn [snd with_db files];
    [apply lookup_insert_eq |].
  destruct (gorm.Create_task _ _ _ _) as [[[e''|] t] d'']; cbn [snd with_db files];
    apply lookup_insert_eq.
Qed.

(** The task a successful createTask leaves in the database, as a lookup by
    its uuid returns it: Pending, named as submitted, with the Playbook and
    Inventory rows of the same call preloaded, whose paths are the two files
    written. *)
Lemma createTask_lookup (v : variant) (env : create_env) (c : gin.Context) (w : World) :
  create_succeeds env ->
  (∀ r, r ∈ gorm.tasks (db w) -> Task.TaskID r <> uuid_New env) ->
  let w' := (createTask v env c w).2 in
  ∃ task,
    gorm.First_task None (uuid_New env) (db w') = (None, task)
    ∧ Task.TaskID task = uuid_New env
    ∧ Task.Status task = Pending
    ∧ Task.Name task = gin.PostForm c "name"
    ∧ Task.Error task = ""
    ∧ Playbook.Path (Task.Playbook task)
      = filepath.Join [rootDir w; uuid_New env; "site.yaml"]
    ∧ Inventory.Path (Task.Inventory task)
      = filepath.Join [rootDir w; uuid_New env; "inventory.ini"]
    ∧ files w' !! filepath.Join [rootDir w; uuid_New env; "site.yaml"]
      = Some (Buffer.String (playbook_buffer v (gin.PostForm c "playbook")))
    ∧ files w' !! filepath.Join [rootDir w; uuid_New env; "inventory.ini"]
      = Some ("[servers]" +:+ nl +:+ gin.PostForm c "inventory").
Proof.
  intros (Hwp & Hcp & Hwi & Hci & Hct) Hfresh w'.
  pose proof (createTask_site_yaml v env c w Hwp) as Hsite.
  pose proof (createTask_inventory_ini v env c w Hwp Hcp Hwi) as Hinv.
  fold w' in Hsite, Hinv.
  assert (∃ p i t,
    db w' = {| gorm.users := gorm.users (db w);
               gorm.inventories := gorm.inventories (db w) ++ [i];
               gorm.playbooks := gorm.playbooks (db w) ++ [p];
               gorm.tasks := gorm.tasks (db w) ++ [t] |}
    ∧ Playbook.ID p = gorm.next_id (map Playbook.ID (gorm.playbooks (db w)))
    ∧ Playbook.Path p = filepath.Join [rootDir w; uuid_New env; "site.yaml"]
    ∧ Inventory.ID i = gorm.next_id (map Inventory.ID (gorm.inventories (db w)))
    ∧ Inventory.Path i = filepath.Join [rootDir w; uuid_New env; "inventory.ini"]
    ∧ Task.TaskID t = uuid_New env ∧ Task.Status t = Pending
    ∧ Task.Name t = gin.PostForm c "name" ∧ Task.Error t = ""
    ∧ Task.PlaybookID t = Playbook.ID p ∧ Task.InventoryID t = Inventory.ID i)
    as (p & i & t & Hdb & Hpid & Hpp & Hiid & Hip & Htid & Hst & Hname & Herr & Htp & Hti).
  { subst w'. unfold createTask, writeFile, gorm.Create_playbook, gorm.Create_inventory,
      gorm.Create_task.
    rewrite Hwp, Hcp, Hwi, Hci, Hct.
    cbn -[playbook_buffer inventory_buffer filepath.Join gorm.next_id].
    do 3 eexists. split; [reflexivity |]. cbn -[filepath.Join gorm.next_id]. done. }
  exists (gorm.preload (db w') t).
  split.
  { unfold gorm.First_task. rewrite Hdb at 1. cbn [gorm.tasks].
    rewrite find_snoc_fresh; [done | | by apply String.eqb_eq].
    intros r Hr. apply String.eqb_neq. by apply Hfresh. }
  rewrite Hdb. unfold gorm.preload. cbn [Task.TaskID Task.Status Task.Name Task.Error
    Task.Playbook Task.Inventory gorm.playbooks gorm.inventories].
  rewrite Htp, Hti, !find_by_next_id by done. unfold default, id.
  by rewrite Hpp, Hip.
Qed.

(** A worker that receives the uuid of a task createTask has just created
    (all steps succeeded, the uuid was not in use) finds the task: it arrives
    at the marking step holding a Pending task whose playbook and inventory
    paths name the script and the inventory file that createTask wrote. *)
Theorem created_task_is_found `{fmt : result_format}
    (v : variant) (index : nat) (env : create_env) (c : gin.Context) (w : World)
    (now : Time) :
  create_succeeds env ->
  (∀ r, r ∈ gorm.tasks (db w) -> Task.TaskID r <> uuid_New env) ->
  let w' := (createTask v env c w).2 in
  ∃ task,
    worker_run v index [recv (uuid_New env); db_answer None now] at_recv w'
    = Some (at_mark (uuid_New env) task, w')
    ∧ Task.Status task = Pending
    ∧ files w' !! Playbook.Path (Task.Playbook task)
      = Some (Buffer.String (playbook_buffer v (gin.PostForm c "playbook")))
    ∧ files w' !! Inventory.Path (Task.Inventory task)
      = Some ("[servers]" +:+ nl +:+ gin.PostForm c "inventory").
Proof.
  intros Hok Hfresh w'.
  destruct (createTask_lookup v env c w Hok Hfresh)
    as (task & Hfirst & _ & Hst & _ & _ & Hp & Hi & Hfp & Hfi).
  fold w' in Hfirst, Hfp, Hfi.
  exists task. cbn [worker_run worker_step]. rewrite Hfirst, Hp, Hi. done.
Qed.

Lemma created_task_is_found_witness :
  let w' := (createTask main_go demo_create (gin.request demo_form) demo_world).2 in
  ∃ task,
    worker_run (fmt := brace_format) main_go 0
      [recv (uuid_New demo_create); db_answer None 200%Z] at_recv w'
    = Some (at_mark (uuid_New demo_create) task, w')
    ∧ Task.Status task = Pending
    ∧ files w' !! Playbook.Path (Task.Playbook task)
      = Some (Buffer.String
                (playbook_buffer main_go (gin.PostForm (gin.request demo_form) "playbook")))
    ∧ files w' !! Inventory.Path (Task.Inventory task)
      = Some ("[servers]" +:+ nl +:+ gin.PostForm (gin.request demo_form) "inventory").
Proof.
  apply (created_task_is_found (fmt := brace_format) main_go 0 demo_create
           (gin.request demo_form) demo_world 200%Z).
  - repeat split; reflexivity.
  - intros r Hr. vm_compute in Hr. inversion Hr.
Defined.

(** ** showTask *)

(** showTask on a task createTask has just created (all steps succeeded,
    the uuid was not in use, the reads succeed): one document, status 200,
    with the Pending task, the script as materialised and the inventory as
    materialised. *)
Theorem showTask_after_createTask `{fmt : result_format}
    (v : variant) (env : create_env) (c : gin.Context) (w : World) :
  create_succeeds env ->
  (∀ r, r ∈ gorm.tasks (db w) -> Task.TaskID r <> uuid_New env) ->
  let w' := (createTask v env c w).2 in
  ∃ task,
    showTask None None None (uuid_New env) w'
    = {| reply_status := Some StatusOK;
         reply_body :=
           [doc_task task
              (Buffer.String (playbook_buffer v (gin.PostForm c "playbook")))
              ("[servers]" +:+ nl +:+ gin.PostForm c "inventory")] |}
    ∧ Task.TaskID task = uuid_New env
    ∧ Task.Name task = gin.PostForm c "name"
    ∧ Task.Status task = Pending.
Proof.
  intros Hok Hfresh w'.
  destruct (createTask_lookup v env c w Hok Hfresh)
    as (task & Hfirst & Htid & Hst & Hname & _ & Hp & Hi & Hfp & Hfi).
  fold w' in Hfirst, Hfp, Hfi.
  exists task. unfold showTask, readFile. rewrite Hfirst, Hp, Hi, Hfp, Hfi. done.
Qed.

Lemma showTask_after_createTask_witness :
  let w' := (createTask part_000 demo_create (gin.request demo_form) demo_world).2 in
  ∃ task,
    showTask (fmt := brace_format) None None None (uuid_New demo_create) w'
    = {| reply_status := Some StatusOK;
         reply_body :=
           [doc_task task
              (Buffer.String
                 (playbook_buffer part_000 (gin.PostForm (gin.request demo_form) "playbook")))
              ("[servers]" +:+ nl +:+ gin.PostForm (gin.request demo_form) "inventory")] |}
    ∧ Task.TaskID task = uuid_New demo_create
    ∧ Task.Name task = gin.PostForm (gin.request demo_form) "name"
    ∧ Task.Status task = Pending.
Proof.
  apply (showTask_after_createTask (fmt := brace_format) part_000 demo_create
           (gin.request demo_form) demo_world).
  - repeat split; reflexivity.
  - intros r Hr. vm_compute in Hr. inversion Hr.
Defined.

(** showTask on an id no task row has: the lookup error is dropped, the
    answer is still 200, it shows the zero task, and in place of the two
    texts the error of reading the empty path. *)
Theorem showTask_unknown_id `{fmt : result_format}
    (first_fault : option error) (taskId : string) (w : World) :
  (∀ r, r ∈ gorm.tasks (db w) -> Task.TaskID r <> taskId) ->
  files w !! "" = None ->
  showTask first_fault None None taskId w
  = {| reply_status := Some StatusOK;
       reply_body := [doc_task Task.zero "open : no such file or directory"
                        "open : no such file or directory"] |}.
Proof.
  intros Hno Hf. unfold showTask, gorm.First_task.
  assert (find (fun r => String.eqb (Task.TaskID r) taskId) (gorm.tasks (db w)) = None)
    as Hfind.
  { apply find_absent. intros r Hr. by apply String.eqb_neq, Hno. }
  rewrite Hfind. unfold readFile. cbn [Task.Playbook Task.Inventory Task.zero
    Playbook.Path Inventory.Path Playbook.zero Inventory.zero].
  destruct first_fault; cbn [Task.Playbook Task.Inventory Task.zero
    Playbook.Path Inventory.Path Playbook.zero Inventory.zero]; by rewrite Hf.
Qed.

Lemma showTask_unknown_id_witness :
  showTask (fmt := brace_format) None None None "no-such-task" (demo_created main_go)
  = {| reply_status := Some StatusOK;
       reply_body := [doc_task Task.zero "open : no such file or directory"
                        "open : no such file or directory"] |}.
Proof.
  apply (showTask_unknown_id (fmt := brace_format) None "no-such-task"
           (demo_created main_go)).
  - intros r Hr. vm_compute in Hr. inversion Hr as [| ? ? ? Hr']; subst.
    + vm_compute. discriminate.
    + inversion Hr'.
  - reflexivity.
Defined.

(** ** The worker: what it leaves alone *)

Ltac log_grows :=
  cbn [print output with_files with_db];
  rewrite <- ?app_assoc;
  first [ by eexists | by exists []; rewrite app_nil_r ].

Lemma runAnsiblePlaybook_frame `{fmt : result_format}
    (v : variant) (env : run_env) (task : Task.t) (w : World) :
  let w' := (runAnsiblePlaybook v env task w).2 in
  rootDir w' = rootDir w
  ∧ (∃ lines, output w' = output w ++ lines)
  ∧ ∀ path, path <> filepath.Join [rootDir w; Task.TaskID task; "result.json"] ->
            files w' !! path = files w !! path.
Proof.
  unfold runAnsiblePlaybook, os.WriteFile. destruct v.
  - destruct (Execute _ _) as [[e|] buff]; cbn [snd].
    { split; [done | split; [log_grows | done]]. }
    destruct (ParseJSONResultsStream buff); cbn [snd];
      [| split; [done | split; [log_grows | done]]].
    destruct (MarshalIndent _); cbn [snd];
      [| split; [done | split; [log_grows | done]]].
    destruct (write_result env); cbn [snd with_files rootDir output files];
      (split; [done | split; [log_grows |]]);
      intros path Hp; by rewrite ?lookup_insert_ne.
  - destruct (Execute _ _) as [[e|] buff]; destruct (read_all env);
      destruct (write_result env);
      cbn [snd print with_files rootDir output files];
      (split; [done | split; [log_grows |]]);
      intros path Hp; by rewrite ?lookup_insert_ne.
Qed.

(** No step of a worker changes the user, playbook or inventory tables, or
    the id, name or foreign keys of a task row. The error column of a row
    changes in one case only: the final update of part_000 after a failed
    run, which sets it to the message of that failure. *)
Theorem worker_step_keeps_rows `{fmt : result_format}
    (v : variant) (index : nat) (p p' : pc) (a : answer) (w w' : World) :
  worker_step v index p a w = Some (p', w') ->
  gorm.users (db w') = gorm.users (db w)
  ∧ gorm.playbooks (db w') = gorm.playbooks (db w)
  ∧ gorm.inventories (db w') = gorm.inventories (db w)
  ∧ ∀ i r, gorm.tasks (db w) !! i = Some r ->
      ∃ r', gorm.tasks (db w') !! i = Some r'
        ∧ Task.ID r' = Task.ID r ∧ Task.Name r' = Task.Name r
        ∧ Task.PlaybookID r' = Task.PlaybookID r
        ∧ Task.InventoryID r' = Task.InventoryID r
        ∧ Task.UserID r' = Task.UserID r
        ∧ (Task.Error r' = Task.Error r
           ∨ ∃ task e, v = part_000 ∧ p = at_update task (Some e)
                       ∧ Task.Error r' = Error_text e).
Proof.
  intros H.
  destruct p as [|taskId|taskId task|task|task err|], a as [tid| |fault now|env];
    cbn [worker_step] in H; try discriminate.
  - simplify_eq. repeat split; try done. intros i r Hr. exists r. auto 10.
  - simplify_eq. repeat split; try done. intros i r Hr. exists r. auto 10.
  - destruct (gorm.First_task fault taskId (db w)) as [[e|] t]; simplify_eq;
      (repeat split; try done); intros i r Hr; exists r; auto 10.
  - destruct (gorm.Updates _ _ _ _) as [[e|] d] eqn:Hu; simplify_eq.
    + repeat split; try done. intros i r Hr. exists r. auto 10.
    + cbn [db with_db]. destruct (Updates_frame _ _ _ _ _ _ Hu) as (-> & -> & ->).
      repeat split; try done. intros i r Hr.
      destruct (Updates_lookup _ _ _ _ _ _ _ _ Hu Hr) as [Hs | (_ & _ & Hs)].
      * exists r. auto 10.
      * eexists. split; [exact Hs |]. cbn. auto 10.
  - destruct (runAnsiblePlaybook v env task w) as [e w1] eqn:Hrun. simplify_eq.
    pose proof (runAnsiblePlaybook_db v env task w) as Hdb. rewrite Hrun in Hdb.
    cbn [snd] in Hdb. rewrite Hdb.
    repeat split; try done. intros i r Hr. exists r. auto 10.
  - match type of H with
    | context [updateTask _ _ _ ?t _] => set (task' := t) in H
    end.
    destruct (updateTask _ _ _ _ _) as [e w1] eqn:Hu.
    assert (db w' = db w1) as -> by (destruct e; by simplify_eq).
    clear H.
    assert (gorm.users (db w1) = gorm.users (db w)
            ∧ gorm.playbooks (db w1) = gorm.playbooks (db w)
            ∧ gorm.inventories (db w1) = gorm.inventories (db w)) as (-> & -> & ->).
    { unfold updateTask in Hu.
      destruct (gorm.Updates _ _ _ _) as [[e1|] d] eqn:Hu'; simplify_eq; [done |].
      cbn [db with_db]. destruct (Updates_frame _ _ _ _ _ _ Hu') as (? & ? & ?). done. }
    repeat split; try done. intros i r Hr.
    destruct (updateTask_lookup _ _ _ _ _ _ _ _ _ Hu Hr)
      as (r' & Hr' & ? & ? & ? & ? & ? & ? & [-> | (_ & _ & _ & _ & Herr)]).
    + exists r. auto 10.
    + exists r'. repeat split; try done.
      destruct v; [by left |]. subst task'.
      destruct err as [e0|]; cbn in Herr.
      * destruct (String.eqb (Error_text e0) ""); [by left |]. right. eauto.
      * by left.
Qed.

Lemma worker_step_keeps_rows_witness :
  gorm.users (db (demo_marked main_go).2) = gorm.users (db (demo_created main_go))
  ∧ gorm.playbooks (db (demo_marked main_go).2) = gorm.playbooks (db (demo_created main_go))
  ∧ gorm.inventories (db (demo_marked main_go).2)
    = gorm.inventories (db (demo_created main_go))
  ∧ ∀ i r, gorm.tasks (db (demo_created main_go)) !! i = Some r ->
      ∃ r', gorm.tasks (db (demo_marked main_go).2) !! i = Some r'
        ∧ Task.ID r' = Task.ID r ∧ Task.Name r' = Task.Name r
        ∧ Task.PlaybookID r' = Task.PlaybookID r
        ∧ Task.InventoryID r' = Task.InventoryID r
        ∧ Task.UserID r' = Task.UserID r
        ∧ (Task.Error r' = Task.Error r
           ∨ ∃ task e, main_go = part_000 ∧ demo_at_mark main_go = at_update task (Some e)
                       ∧ Task.Error r' = Error_text e).
Proof.
  apply (worker_step_keeps_rows (fmt := brace_format) main_go 0 (demo_at_mark main_go)
           (demo_marked main_go).1 (db_answer None 200%Z) (demo_created main_go)
           (demo_marked main_go).2).
  reflexivity.
Defined.

(** No step of a worker writes a file other than the result document of the
    task it is running: every other path (the script and the inventory of
    every task among them) reads the same before and after. The data
    directory setting is untouched and the log only grows. *)
Theorem worker_step_keeps_files `{fmt : result_format}
    (v : variant) (index : nat) (p p' : pc) (a : answer) (w w' : World) :
  worker_step v index p a w = Some (p', w') ->
  rootDir w' = rootDir w
  ∧ (∃ lines, output w' = output w ++ lines)
  ∧ ∀ path,
      files w' !! path = files w !! path
      ∨ ∃ task, p = at_run task
                ∧ path = filepath.Join [rootDir w; Task.TaskID task; "result.json"].
Proof.
  intros H.
  destruct p as [|taskId|taskId task|task|task err|], a as [tid| |fault now|env];
    cbn [worker_step] in H; try discriminate.
  - simplify_eq. split; [done | split; [log_grows | by left]].
  - simplify_eq. split; [done | split; [log_grows | by left]].
  - destruct (gorm.First_task fault taskId (db w)) as [[e|] t]; simplify_eq;
      (split; [done | split; [log_grows | by left]]).
  - destruct (gorm.Updates _ _ _ _) as [[e|] d]; simplify_eq;
      (split; [done | split; [log_grows | by left]]).
  - destruct (runAnsiblePlaybook v env task w) as [e w1] eqn:Hrun. simplify_eq.
    pose proof (runAnsiblePlaybook_frame v env task w) as Hf. rewrite Hrun in Hf.
    cbn [snd] in Hf. destruct Hf as (Hroot & Hout & Hfiles).
    split; [done | split; [done |]]. intros path.
    destruct (decide (path = filepath.Join [rootDir w; Task.TaskID task; "result.json"]))
      as [-> | Hne]; [right; by eexists | left; by apply Hfiles].
  - unfold updateTask in H.
    destruct (gorm.Updates _ _ _ _) as [[e|] d]; simplify_eq;
      (split; [done | split; [log_grows | by left]]).
Qed.

Lemma worker_step_keeps_files_witness :
  rootDir (demo_marked part_000).2 = rootDir (demo_created part_000)
  ∧ (∃ lines, output (demo_marked part_000).2 = output (demo_created part_000) ++ lines)
  ∧ ∀ path,
      files (demo_marked part_000).2 !! path = files (demo_created part_000) !! path
      ∨ ∃ task, demo_at_mark part_000 = at_run task
                ∧ path = filepath.Join [rootDir (demo_created part_000);
                                        Task.TaskID task; "result.json"].
Proof.
  apply (worker_step_keeps_files (fmt := brace_format) part_000 0 (demo_at_mark part_000)
           (demo_marked part_000).1 (db_answer None 200%Z) (demo_created part_000)
           (demo_marked part_000).2).
  reflexivity.
Defined.

(** ** runAnsiblePlaybook and the status it leads to *)

Lemma db_print (l : log_line) (w : World) : db (print l w) = db w.
Proof. reflexivity. Qed.
Lemma db_with_files (fs : gmap string string) (w : World) : db (with_files fs w) = db w.
Proof. reflexivity. Qed.
Lemma files_print (l : log_line) (w : World) : files (print l w) = files w.
Proof. reflexivity. Qed.
Lemma files_with_files (fs : gmap string string) (w : World) : files (with_files fs w) = fs.
Proof. reflexivity. Qed.
Lemma files_with_db (d : gorm.DB) (w : World) : files (with_db d w) = files w.
Proof. reflexivity. Qed.
Lemma db_with_db (d : gorm.DB) (w : World) : db (with_db d w) = d.
Proof. reflexivity. Qed.

Ltac world_fields :=
  rewrite ?db_print, ?db_with_files, ?db_with_db,
    ?files_print, ?files_with_files, ?files_with_db.

(** main.go: runAnsiblePlaybook returns nil exactly when the process ended
    within the timeout with exit code 0, its output parsed, the document was
    encoded and the result file was written to its end; the file then holds
    the encoded document. *)
Theorem runAnsiblePlaybook_main_go_nil `{fmt : result_format}
    (env : run_env) (task : Task.t) (w : World) :
  (runAnsiblePlaybook main_go env task w).1 = None
  <-> ((runs_for (proc env) <= timeout main_go)%Z
       ∧ exit_code (proc env) = 0%Z
       ∧ write_result env = written
       ∧ ∃ res raw,
           ParseJSONResultsStream (emits (proc env)) = inl res
           ∧ MarshalIndent res = inl raw
           ∧ files (runAnsiblePlaybook main_go env task w).2
               !! filepath.Join [rootDir w; Task.TaskID task; "result.json"]
             = Some raw).
Proof.
  unfold runAnsiblePlaybook, Execute, os.WriteFile.
  destruct (timeout main_go <? runs_for (proc env))%Z eqn:Ht.
  { apply Z.ltb_lt in Ht. split; [done | intros (? & _); lia]. }
  apply Z.ltb_ge in Ht.
  destruct (exit_code (proc env) =? 0)%Z eqn:Hx.
  2:{ apply Z.eqb_neq in Hx. split; [done | by intros (_ & ? & _)]. }
  apply Z.eqb_eq in Hx.
  destruct (ParseJSONResultsStream (emits (proc env))) as [res|e] eqn:Hp.
  2:{ split; [done | by intros (_ & _ & _ & ? & ? & ? & _)]. }
  destruct (MarshalIndent res) as [raw|e] eqn:Hm.
  2:{ split; [done |]. intros (_ & _ & _ & res' & raw' & Hres & Hraw & _).
      simplify_eq. congruence. }
  destruct (write_result env) eqn:Hw; cbn [fst snd with_files files];
    (split; [try done | try by intros (_ & _ & ? & _)]).
  intros _. repeat split; try done. exists res, raw.
  rewrite Hm. repeat split; try done. apply lookup_insert_eq.
Qed.

(** main.go: when the process outlives the timeout, exits non-zero, or
    writes output that does not parse, the worker that runs the task and then
    updates it (the database answering) leaves the files as they were and
    the row of the task Failed. *)
Theorem main_go_failed_run `{fmt : result_format}
    (index : nat) (env : run_env) (task : Task.t) (now : Time) (w : World)
    (i : nat) (r : Task.t) :
  (timeout main_go < runs_for (proc env))%Z
  ∨ exit_code (proc env) <> 0%Z
  ∨ (∃ e, ParseJSONResultsStream (emits (proc env)) = inr e) ->
  gorm.tasks (db w) !! i = Some r ->
  Task.ID r = Task.ID task ->
  ∃ w' r',
    worker_run main_go index [run_answer env; db_answer None now] (at_run task) w
    = Some (at_recv, w')
    ∧ files w' = files w
    ∧ gorm.tasks (db w') !! i = Some r'
    ∧ Task.Status r' = Failed
    ∧ Task.UpdatedAt r' = now.
Proof.
  intros Hfail Hr Hid.
  destruct (runAnsiblePlaybook_main_go_fails env task w Hfail) as [e He].
  cbn [worker_run worker_step]. rewrite He.
  unfold updateTask, gorm.Updates. cbn [db with_db files gorm.tasks].
  do 2 eexists. split; [reflexivity |]. cbn [files db with_db gorm.tasks].
  split; [done |].
  rewrite list_lookup_fmap, Hr. cbn [fmap option_fmap option_map].
  cbn [Task.set_Error Task.set_Status Task.ID]. rewrite Hid, N.eqb_refl.
  split; [reflexivity |]. done.
Qed.

Lemma main_go_failed_run_witness :
  ∃ w' r',
    worker_run (fmt := brace_format) main_go 0
      [run_answer (overrun main_go); db_answer None 300%Z]
      (at_run (gorm.First_task None "6f1c" (db (demo_created main_go))).2)
      (demo_created main_go)
    = Some (at_recv, w')
    ∧ files w' = files (demo_created main_go)
    ∧ gorm.tasks (db w') !! 0 = Some r'
    ∧ Task.Status r' = Failed
    ∧ Task.UpdatedAt r' = 300%Z.
Proof.
  refine (main_go_failed_run (fmt := brace_format) 0 (overrun main_go)
            (gorm.First_task None "6f1c" (db (demo_created main_go))).2 300%Z
            (demo_created main_go) 0
            (default Task.zero (gorm.tasks (db (demo_created main_go)) !! 0)) _ _ _).
  - left. reflexivity.
  - reflexivity.
  - reflexivity.
Defined.

(** part_000: as long as the buffer can be read back, what the process did
    (timeout, exit code, output) has no bearing on the outcome: the worker
    that runs the task and then updates it leaves the row Succeeded, and
    when the result file can be written it holds the captured output as it
    is. *)
Theorem part_000_run_always_succeeds `{fmt : result_format}
    (index : nat) (env : run_env) (task : Task.t) (now : Time) (w : World)
    (i : nat) (r : Task.t) :
  read_all env = None ->
  gorm.tasks (db w) !! i = Some r ->
  Task.ID r = Task.ID task ->
  ∃ w' r',
    worker_run part_000 index [run_answer env; db_answer None now] (at_run task) w
    = Some (at_recv, w')
    ∧ gorm.tasks (db w') !! i = Some r'
    ∧ Task.Status r' = Succeeded
    ∧ Task.Error r' = Task.Error r
    ∧ (write_result env = written ->
       files w' !! filepath.Join [rootDir w; Task.TaskID task; "result.json"]
       = Some (emits (proc env))).
Proof.
  intros Hread Hr Hid.
  cbn [worker_run worker_step]. unfold runAnsiblePlaybook. rewrite Hread.
  assert (∃ oe, Execute (timeout part_000) (proc env) = (oe, emits (proc env)))
    as [oe ->].
  { unfold Execute. repeat case_match; by eexists. }
  unfold os.WriteFile, updateTask, gorm.Updates.
  destruct oe as [e|], (write_result env) as [e1|e1 n|];
    (do 2 eexists; split; [reflexivity |];
     repeat (world_fields; cbn [gorm.tasks]);
     rewrite list_lookup_fmap, Hr; cbn [fmap option_fmap option_map];
     cbn [Task.set_Error Task.set_Status Task.ID]; rewrite Hid, N.eqb_refl;
     split; [reflexivity |]; repeat split; try done;
     intros _; apply lookup_insert_eq).
Qed.

Lemma part_000_run_always_succeeds_witness :
  ∃ w' r',
    worker_run (fmt := brace_format) part_000 0
      [run_answer exits_nonzero; db_answer None 300%Z]
      (at_run (gorm.First_task None "6f1c" (db (demo_created part_000))).2)
      (demo_created part_000)
    = Some (at_recv, w')
    ∧ gorm.tasks (db w') !! 0 = Some r'
    ∧ Task.Status r' = Succeeded
    ∧ Task.Error r'
      = Task.Error (default Task.zero (gorm.tasks (db (demo_created part_000)) !! 0))
    ∧ (write_result exits_nonzero = written ->
       files w' !! filepath.Join
                     [rootDir (demo_created part_000);
                      Task.TaskID (gorm.First_task None "6f1c" (db (demo_created part_000))).2;
                      "result.json"]
       = Some (emits (proc exits_nonzero))).
Proof.
  refine (part_000_run_always_succeeds (fmt := brace_format) 0 exits_nonzero
            (gorm.First_task None "6f1c" (db (demo_created part_000))).2 300%Z
            (demo_created part_000) 0
            (default Task.zero (gorm.tasks (db (demo_created part_000)) !! 0)) _ _ _);
    reflexivity.
Defined.

(** ** The dispatch queue: requests and shutdown *)

(** A run request never disappears and never changes its id. One whose send
    has completed, or that has panicked, stays as it is; one at its send
    either stays there, or completes, or panics, the last only on a closed
    channel. *)
Theorem requests_are_kept `{fmt : result_format}
    (v : variant) (e : event) (s s' : system) (i : nat) (h : handler) :
  system_step v e s = Some s' ->
  requests s !! i = Some h ->
  ∃ h', requests s' !! i = Some h'
    ∧ request_id h' = request_id h
    ∧ (h' = h
       ∨ (h = sending (request_id h)
          ∧ (h' = redirected (request_id h)
             ∨ (h' = panicked (request_id h) ∧ closed (queue s) = true)))).
Proof.
  intros H Hi.
  assert (Hlt : i < length (requests s)) by (by apply lookup_lt_Some in Hi).
  destruct e as [tid|j k|j|k|k a| |k|j]; cbn [system_step] in H.
  - simplify_eq. exists h. cbn. rewrite lookup_app_l by done. auto.
  - destruct (requests s !! j) as [[tid| |]|] eqn:Hj; try done.
    destruct (workers s !! k) as [[| | | | |]|]; try done.
    destruct (buf (queue s)); [| done]. destruct (closed (queue s)); [done |].
    cbn [worker_step] in H. simplify_eq. cbn.
    destruct (decide (i = j)) as [-> | Hne].
    + simplify_eq. exists (redirected tid).
      rewrite list_lookup_insert_eq by done. cbn. auto 10.
    + exists h. rewrite list_lookup_insert_ne by done. auto.
  - destruct (requests s !! j) as [[tid| |]|] eqn:Hj; try done.
    destruct (closed (queue s)); [done |]. case_decide; [| done].
    simplify_eq. cbn.
    destruct (decide (i = j)) as [-> | Hne].
    + simplify_eq. exists (redirected tid).
      rewrite list_lookup_insert_eq by done. cbn. auto 10.
    + exists h. rewrite list_lookup_insert_ne by done. auto.
  - exists h.
    destruct (workers s !! k) as [[| | | | |]|]; try done.
    destruct (buf (queue s)); [done |]. cbn [worker_step] in H. simplify_eq. auto.
  - exists h.
    repeat match type of H with
           | context [match ?x with _ => _ end] => destruct x; try discriminate
           end; simplify_eq; auto.
  - exists h. destruct (closed (queue s)); simplify_eq. auto.
  - exists h.
    destruct (workers s !! k) as [[| | | | |]|]; try done.
    destruct (buf (queue s)); [| done]. destruct (closed (queue s)); [| done].
    cbn [worker_step] in H. simplify_eq. auto.
  - destruct (requests s !! j) as [[tid| |]|] eqn:Hj; try done.
    destruct (closed (queue s)) eqn:Hc; [| done]. simplify_eq. cbn.
    destruct (decide (i = j)) as [-> | Hne].
    + simplify_eq. exists (panicked tid).
      rewrite list_lookup_insert_eq by done. cbn. auto 10.
    + exists h. rewrite list_lookup_insert_ne by done. auto.
Qed.

Lemma requests_are_kept_witness :
  ∃ h', requests (default demo_system
                    (system_step (fmt := brace_format) main_go ev_close demo_system))
          !! 2 = Some h'
    ∧ request_id h' = request_id (sending "77aa")
    ∧ (h' = sending "77aa"
       ∨ (sending "77aa" = sending (request_id (sending "77aa"))
          ∧ (h' = redirected (request_id (sending "77aa"))
             ∨ (h' = panicked (request_id (sending "77aa"))
                ∧ closed (queue demo_system) = true)))).
Proof.
  apply (requests_are_kept (fmt := brace_format) main_go ev_close demo_system
           (default demo_system
              (system_step (fmt := brace_format) main_go ev_close demo_system))
           2 (sending "77aa")); reflexivity.
Defined.

(** Once the channel is closed it stays closed, no send completes any more,
    and no worker takes a new job: a worker waiting in its receive stays
    there or stops. *)
Theorem closed_queue_dispatches_nothing `{fmt : result_format}
    (v : variant) (w : World) (events : list event) (s s' : system) (e : event) :
  system_run v events (main_started w) = Some s ->
  closed (queue s) = true ->
  system_step v e s = Some s' ->
  closed (queue s') = true
  ∧ (∀ i taskId, requests s !! i = Some (sending taskId) ->
       requests s' !! i = Some (sending taskId)
       ∨ requests s' !! i = Some (panicked taskId))
  ∧ (∀ k, workers s !! k = Some at_recv ->
       workers s' !! k = Some at_recv ∨ workers s' !! k = Some stopped).
Proof.
  intros Hrun Hclosed H.
  destruct (pool_invariant_run v events _ _ (pool_invariant_started w) Hrun)
    as (Hcap & Hbuf & Hlen).
  destruct e as [tid|j k|j|k|k a| |k|j]; cbn [system_step] in H.
  - simplify_eq. cbn. repeat split; try done; [| by auto].
    intros i tid' Hi. left. by apply lookup_app_l_Some.
  - destruct (requests s !! j) as [[tid| |]|]; try done.
    destruct (workers s !! k) as [[| | | | |]|]; try done.
    by rewrite Hbuf, Hclosed in H.
  - destruct (requests s !! j) as [[tid| |]|]; try done. by rewrite Hclosed in H.
  - destruct (workers s !! k) as [[| | | | |]|]; try done. by rewrite Hbuf in H.
  - destruct (workers s !! k) as [p|] eqn:Hk; [| by destruct a].
    assert (p <> at_recv) as Hp by (intros ->; by destruct a).
    assert (∃ p' w', s' = set_worker k p' w' s) as (p' & w' & ->).
    { destruct p, a; try done;
        destruct (worker_step v k _ _ (world s)) as [[p' w']|]; simplify_eq; eauto. }
    cbn. repeat split; try done; [by auto |].
    intros k' Hk'. left.
    destruct (decide (k' = k)) as [-> | Hne]; [congruence |].
    by rewrite list_lookup_insert_ne.
  - by rewrite Hclosed in H.
  - destruct (workers s !! k) as [[| | | | |]|] eqn:Hk; try done.
    rewrite Hbuf, Hclosed in H. cbn [worker_step] in H. simplify_eq. cbn.
    repeat split; try done; [by auto |].
    intros k' Hk'. destruct (decide (k' = k)) as [-> | Hne].
    + right. apply list_lookup_insert_eq. by apply lookup_lt_Some in Hk.
    + left. by rewrite list_lookup_insert_ne.
  - destruct (requests s !! j) as [[tid| |]|] eqn:Hj; try done.
    rewrite Hclosed in H. simplify_eq. cbn. repeat split; try done; [| by auto].
    intros i tid' Hi. destruct (decide (i = j)) as [-> | Hne].
    + right. simplify_eq. apply list_lookup_insert_eq. by apply lookup_lt_Some in Hj.
    + left. by rewrite list_lookup_insert_ne.
Qed.

Lemma closed_queue_dispatches_nothing_witness :
  closed (queue demo_panicked) = true
  ∧ (∀ i taskId, requests demo_closed !! i = Some (sending taskId) ->
       requests demo_panicked !! i = Some (sending taskId)
       ∨ requests demo_panicked !! i = Some (panicked taskId))
  ∧ (∀ k, workers demo_closed !! k = Some at_recv ->
       workers demo_panicked !! k = Some at_recv
       ∨ workers demo_panicked !! k = Some stopped).
Proof.
  apply (closed_queue_dispatches_nothing (fmt := brace_format) main_go
           (demo_created main_go) (demo_events ++ [ev_close]) demo_closed demo_panicked
           (ev_panic 2)); reflexivity.
Defined.

(** The task a lookup returns carries the id it was looked up by. *)
Lemma First_task_TaskID (fault : option error) (taskId : string) (d : gorm.DB)
    (task : Task.t) :
  gorm.First_task fault taskId d = (None, task) -> Task.TaskID task = taskId.
Proof.
  unfold gorm.First_task. destruct fault; [done |].
  destruct (find _ _) as [r|] eqn:Hf; [| done].
  intros H. simplify_eq. apply find_some in Hf as [_ Hf].
  cbn. by apply String.eqb_eq.
Qed.

Lemma elem_of_insert_other {A} (l : list A) (j : nat) (x y h : A) :
  l !! j = Some y -> h <> y -> h ∈ l -> h ∈ <[j := x]> l.
Proof.
  intros Hj Hne Hin. apply list_elem_of_lookup in Hin as [i Hi].
  apply list_elem_of_lookup. exists i.
  rewrite list_lookup_insert_ne; [done |]. intros ->. congruence.
Qed.

Lemma jobs_were_requested_step `{fmt : result_format}
    (v : variant) (e : event) (s s' : system) :
  pool_invariant s -> jobs_were_requested s ->
  system_step v e s = Some s' -> jobs_were_requested s'.
Proof.
  intros (Hcap & Hbuf & Hlen) Hinv H.
  assert (Hkeep : ∀ (rs : list handler),
            (∀ t, redirected t ∈ requests s -> redirected t ∈ rs) ->
            ∀ k p, workers s !! k = Some p ->
              match p with
              | at_mark taskId task =>
                  Task.TaskID task = taskId ∧ redirected taskId ∈ rs
              | _ => ∀ taskId, job_id p = Some taskId -> redirected taskId ∈ rs
              end).
  { intros rs Hrs k p Hk. specialize (Hinv k p Hk).
    destruct p; try (intros t Ht; by apply Hrs, Hinv).
    destruct Hinv. split; [done | by apply Hrs]. }
  destruct e as [tid|j k|j|k|k a| |k|j]; cbn [system_step] in H.
  - simplify_eq. intros k' q Hk'. cbn in Hk'.
    eapply (Hkeep (requests s ++ [sending tid])); [| exact Hk'].
    intros t Ht. apply elem_of_app. by left.
  - destruct (requests s !! j) as [[tid| |]|] eqn:Hj; try done.
    destruct (workers s !! k) as [[| | | | |]|] eqn:Hk; try done.
    rewrite Hbuf in H. destruct (closed (queue s)); [done |].
    cbn [worker_step] in H. simplify_eq.
    intros k' p Hk'. cbn in Hk'. cbn [requests set_worker set_requests].
    destruct (decide (k' = k)) as [-> | Hne].
    + rewrite list_lookup_insert_eq in Hk' by (by apply lookup_lt_Some in Hk).
      simplify_eq. intros t Ht. cbn in Ht. simplify_eq.
      apply list_elem_of_lookup. exists j.
      apply list_lookup_insert_eq. by apply lookup_lt_Some in Hj.
    + rewrite list_lookup_insert_ne in Hk' by done.
      eapply (Hkeep (<[j := redirected tid]> (requests s))); [| exact Hk'].
      intros t Ht. by apply (elem_of_insert_other _ _ _ (sending tid)).
  - destruct (requests s !! j) as [[tid| |]|]; try done.
    destruct (closed (queue s)); [done |]. rewrite Hcap in H. by case_decide; [lia |].
  - destruct (workers s !! k) as [[| | | | |]|]; try done. by rewrite Hbuf in H.
  - destruct (workers s !! k) as [p|] eqn:Hk; [| by destruct a].
    assert (∃ p' w', worker_step v k p a (world s) = Some (p', w')
                     ∧ s' = set_worker k p' w' s) as (p' & w' & Hstep & ->).
    { destruct p, a; try done;
        destruct (worker_step v k _ _ (world s)) as [[p' w']|]; simplify_eq; eauto. }
    intros k' q Hk'. cbn in Hk'. cbn [requests set_worker].
    destruct (decide (k' = k)) as [-> | Hne];
      [| rewrite list_lookup_insert_ne in Hk' by done; exact (Hinv k' q Hk')].
    rewrite list_lookup_insert_eq in Hk' by (by apply lookup_lt_Some in Hk).
    simplify_eq. specialize (Hinv k p Hk).
    destruct p as [|taskId|taskId task|task|task err|], a as [tid| |fault now|env];
      cbn [worker_step] in Hstep; try discriminate; try done.
    + destruct (gorm.First_task fault taskId (db (world s))) as [[e|] t] eqn:Hf;
        simplify_eq; [by intros t' Ht' |].
      split; [by eapply First_task_TaskID | by apply Hinv].
    + destruct Hinv as [Htid Hin].
      destruct (gorm.Updates _ _ _ _) as [[e|] d]; simplify_eq; [by intros t' Ht' |].
      intros t Ht. cbn in Ht. by simplify_eq.
    + destruct (runAnsiblePlaybook v env task (world s)). simplify_eq.
      intros t Ht. by apply Hinv.
    + destruct (updateTask _ _ _ _ _) as [[e|] w1]; simplify_eq; by intros t Ht.
  - destruct (closed (queue s)); simplify_eq. intros k' q Hk'. exact (Hinv k' q Hk').
  - destruct (workers s !! k) as [[| | | | |]|] eqn:Hk; try done.
    rewrite Hbuf in H. destruct (closed (queue s)); [| done].
    cbn [worker_step] in H. simplify_eq.
    intros k' q Hk'. cbn in Hk'. cbn [requests set_worker].
    destruct (decide (k' = k)) as [-> | Hne];
      [| rewrite list_lookup_insert_ne in Hk' by done; exact (Hinv k' q Hk')].
    rewrite list_lookup_insert_eq in Hk' by (by apply lookup_lt_Some in Hk).
    simplify_eq. by intros t Ht.
  - destruct (requests s !! j) as [[tid| |]|] eqn:Hj; try done.
    destruct (closed (queue s)); [| done]. simplify_eq.
    intros k' q Hk'. cbn in Hk'.
    eapply (Hkeep (<[j := panicked tid]> (requests s))); [| exact Hk'].
    intros t Ht. by apply (elem_of_insert_other _ _ _ (sending tid)).
Qed.

Lemma jobs_were_requested_run `{fmt : result_format}
    (v : variant) (events : list event) (s s' : system) :
  pool_invariant s -> jobs_were_requested s ->
  system_run v events s = Some s' -> jobs_were_requested s'.
Proof.
  revert s. induction events as [|e events IH]; intros s Hp Hj H; cbn [system_run] in H.
  - by simplify_eq.
  - destruct (system_step v e s) as [s1|] eqn:Hs; [| done].
    eapply IH; [| | exact H].
    + eapply pool_invariant_step; eauto.
    + eapply jobs_were_requested_step; eauto.
Qed.

(** In every state the running server reaches, a worker that holds a job
    holds the id of a run request whose send has completed: workers run
    nothing that was not triggered. *)
Theorem workers_run_requested_ids `{fmt : result_format}
    (v : variant) (w : World) (events : list event) (s : system)
    (k : nat) (p : pc) (taskId : string) :
  system_run v events (main_started w) = Some s ->
  workers s !! k = Some p ->
  job_id p = Some taskId ->
  redirected taskId ∈ requests s.
Proof.
  intros Hrun Hk Hid.
  assert (jobs_were_requested s) as Hinv.
  { eapply jobs_were_requested_run; [apply pool_invariant_started | | exact Hrun].
    intros k' q Hk'. cbn in Hk'.
    destruct k' as [|[|k']]; cbn in Hk'; simplify_eq; by intros t Ht. }
  specialize (Hinv k p Hk).
  destruct p; try by apply Hinv.
  destruct Hinv as [_ Hin]. cbn in Hid. by simplify_eq.
Qed.

Lemma workers_run_requested_ids_witness :
  redirected "6f1c" ∈ requests demo_system.
Proof.
  apply (workers_run_requested_ids (fmt := brace_format) main_go (demo_created main_go)
           demo_events demo_system 0 (at_first "6f1c") "6f1c"); reflexivity.
Defined.

(** ** Shutdown *)

Lemma system_run_app `{fmt : result_format}
    (v : variant) (evs1 evs2 : list event) (s s1 s2 : system) :
  system_run v evs1 s = Some s1 -> system_run v evs2 s1 = Some s2 ->
  system_run v (evs1 ++ evs2) s = Some s2.
Proof.
  revert s. induction evs1 as [|e evs1 IH]; intros s H1 H2; cbn [system_run app] in *.
  - by simplify_eq.
  - destruct (system_step v e s) as [s'|]; [| done]. by apply IH.
Qed.

(** A worker inside the loop body can always take its next call, and is
    then closer to its receive. *)
Lemma worker_progress `{fmt : result_format}
    (v : variant) (k : nat) (p : pc) (w : World) :
  0 < calls_left p ->
  ∃ a p' w', worker_step v k p a w = Some (p', w')
             ∧ calls_left p' < calls_left p
             ∧ match a with recv _ | recv_closed => False | _ => True end.
Proof.
  destruct p as [|taskId|taskId task|task|task err|]; cbn [calls_left]; intros Hp;
    try lia.
  - exists (db_answer None 0%Z). cbn [worker_step].
    destruct (gorm.First_task None taskId (db w)) as [[e|] t];
      do 2 eexists; (split; [reflexivity |]); cbn; (split; [lia | done]).
  - exists (db_answer None 0%Z). cbn [worker_step gorm.Updates].
    do 2 eexists. split; [reflexivity |]. cbn. split; [lia | done].
  - exists (run_answer quiet). cbn [worker_step].
    destruct (runAnsiblePlaybook v quiet task w).
    do 2 eexists. split; [reflexivity |]. cbn. split; [lia | done].
  - exists (db_answer None 0%Z). cbn [worker_step updateTask gorm.Updates].
    do 2 eexists. split; [reflexivity |]. cbn. split; [lia | done].
Qed.

Lemma set_worker_twice (k : nat) (p p' : pc) (w w' : World) (s : system) :
  set_worker k p' w' (set_worker k p w s) = set_worker k p' w' s.
Proof. unfold set_worker. cbn. by rewrite list_insert_insert_eq. Qed.

(** A worker can always be brought back to its receive. *)
Lemma finish_job `{fmt : result_format} (v : variant) (k n : nat) :
  ∀ (s : system) (p : pc),
    calls_left p <= n -> workers s !! k = Some p ->
    ∃ evs p' w', Forall shutdown_event evs
                 ∧ system_run v evs s = Some (set_worker k p' w' s)
                 ∧ calls_left p' = 0.
Proof.
  induction n as [|n IH]; intros s p Hn Hk.
  - exists [], p, (world s). split; [constructor |]. split; [| lia].
    cbn [system_run]. unfold set_worker. rewrite list_insert_id by done. by destruct s.
  - destruct (decide (calls_left p = 0)) as [Hz | Hnz].
    { apply (IH s p); [lia | done]. }
    destruct (worker_progress v k p (world s)) as (a & p1 & w1 & Hstep & Hlt & Ha);
      [lia |].
    assert (system_step v (ev_work k a) s = Some (set_worker k p1 w1 s)) as Hsys.
    { cbn [system_step]. rewrite Hk.
      destruct p; cbn [calls_left] in Hnz; try lia; destruct a; try done;
        by rewrite Hstep. }
    destruct (IH (set_worker k p1 w1 s) p1) as (evs & p' & w' & Hall & Hrun & Hz);
      [lia | |].
    { cbn. apply list_lookup_insert_eq. by apply lookup_lt_Some in Hk. }
    exists (ev_work k a :: evs), p', w'. split; [by constructor |].
    split; [| done]. cbn [system_run]. rewrite Hsys, Hrun. by rewrite set_worker_twice.
Qed.

(** On a closed and empty channel a worker can always be brought to its
    return. *)
Lemma stop_worker `{fmt : result_format} (v : variant) (k : nat) (s : system) (p : pc) :
  buf (queue s) = [] -> closed (queue s) = true -> workers s !! k = Some p ->
  ∃ evs w', Forall shutdown_event evs
            ∧ system_run v evs s = Some (set_worker k stopped w' s).
Proof.
  intros Hbuf Hclosed Hk.
  destruct (finish_job v k (calls_left p) s p) as (evs & p' & w' & Hall & Hrun & Hz);
    [done | done |].
  destruct p'; cbn [calls_left] in Hz; try lia.
  - exists (evs ++ [ev_drained k]), (print (log_stopped k) w'). split.
    { apply Forall_app. split; [done | by repeat constructor]. }
    eapply system_run_app; [exact Hrun |].
    cbn [system_run system_step].
    change (workers (set_worker k at_recv w' s)) with (<[k := at_recv]> (workers s)).
    change (queue (set_worker k at_recv w' s)) with (queue s).
    change (world (set_worker k at_recv w' s)) with w'.
    rewrite list_lookup_insert_eq by (by apply lookup_lt_Some in Hk).
    rewrite Hbuf, Hclosed. cbn [worker_step].
    by rewrite set_worker_twice.
  - by exists evs, w'.
Qed.

(** From every state the running server reaches it can be shut down with
    no further request served: the channel is closed, each worker goes on
    with the job it holds until it is back at its receive, sees the closed
    channel and returns. Both workers end stopped, the requests are as they
    were. *)
Theorem graceful_shutdown `{fmt : result_format}
    (v : variant) (w : World) (events : list event) (s : system) :
  system_run v events (main_started w) = Some s ->
  ∃ more s',
    Forall shutdown_event more
    ∧ system_run v more s = Some s'
    ∧ closed (queue s') = true
    ∧ workers s' = [stopped; stopped]
    ∧ requests s' = requests s.
Proof.
  intros Hrun.
  destruct (pool_invariant_run v events _ _ (pool_invariant_started w) Hrun)
    as (Hcap & Hbuf & Hlen).
  assert (∃ evs0 s0, Forall shutdown_event evs0 ∧ system_run v evs0 s = Some s0
                     ∧ closed (queue s0) = true ∧ buf (queue s0) = []
                     ∧ workers s0 = workers s ∧ requests s0 = requests s)
    as (evs0 & s0 & Hall0 & Hrun0 & Hclosed & Hbuf0 & Hw0 & Hr0).
  { destruct (closed (queue s)) eqn:Hc.
    - exists [], s. by repeat split.
    - eexists [ev_close], _. split; [by repeat constructor |].
      cbn [system_run system_step]. rewrite Hc. by repeat split. }
  destruct (workers s) as [|p0 [|p1 [|]]] eqn:Hws; try done.
  destruct (stop_worker v 0 s0 p0 Hbuf0 Hclosed) as (evs1 & w1 & Hall1 & Hrun1);
    [by rewrite Hw0 |].
  destruct (stop_worker v 1 (set_worker 0 stopped w1 s0) p1)
    as (evs2 & w2 & Hall2 & Hrun2); [done | done | by cbn; rewrite Hw0 |].
  exists (evs0 ++ evs1 ++ evs2), (set_worker 1 stopped w2 (set_worker 0 stopped w1 s0)).
  split; [by rewrite !Forall_app |].
  split.
  { eapply system_run_app; [exact Hrun0 |]. eapply system_run_app; eauto. }
  cbn. rewrite Hw0. by repeat split.
Qed.

Lemma graceful_shutdown_witness :
  ∃ more s',
    Forall shutdown_event more
    ∧ system_run (fmt := brace_format) main_go more demo_system = Some s'
    ∧ closed (queue s') = true
    ∧ workers s' = [stopped; stopped]
    ∧ requests s' = requests demo_system.
Proof.
  apply (graceful_shutdown (fmt := brace_format) main_go (demo_created main_go)
           demo_events demo_system).
  reflexivity.
Defined.

(** ** showIndex *)

#[local] Instance id_desc_transitive : Transitive id_desc.
Proof. unfold id_desc. intros a b c ? ?. lia. Qed.

#[local] Instance id_desc_total : Total id_desc.
Proof. unfold id_desc. intros a b. lia. Qed.

Lemma preload_ID (d : gorm.DB) (r : Task.t) : Task.ID (gorm.preload d r) = Task.ID r.
Proof. reflexivity. Qed.

(** showIndex answers a failed query with status 400 and an error document,
    and then still renders the index page, over whatever the query had left
    in the slice. When the query succeeds it renders, with status 200, the
    index page over at most ten tasks: as many as the table has rows, up to
    ten; each a row of the table with its associations loaded; ordered by
    descending id; and no row left out has a larger id than a row shown. *)
Theorem showIndex_lists_recent `{fmt : result_format}
    (fault : option (error * list Task.t)) (w : World) :
  match fault with
  | Some (e, scanned) =>
      showIndex fault w
      = {| reply_status := Some StatusBadRequest;
           reply_body := [doc_error (Error_text e); doc_index scanned] |}
  | None =>
      ∃ tasks,
        showIndex fault w
        = {| reply_status := Some StatusOK; reply_body := [doc_index tasks] |}
        ∧ length tasks = min 10 (length (gorm.tasks (db w)))
        ∧ StronglySorted id_desc tasks
        ∧ (∀ t, t ∈ tasks -> ∃ r, r ∈ gorm.tasks (db w) ∧ t = gorm.preload (db w) r)
        ∧ (∀ r, r ∈ gorm.tasks (db w) ->
             gorm.preload (db w) r ∈ tasks
             ∨ ∀ t, t ∈ tasks -> (Task.ID r <= Task.ID t)%N)
  end.
Proof.
  destruct fault as [[e scanned]|]; [done |].
  unfold showIndex, Find_recent.
  set (sorted := merge_sort id_desc (gorm.tasks (db w))).
  assert (Hperm : sorted ≡ₚ gorm.tasks (db w)) by apply merge_sort_Permutation.
  assert (Hss : StronglySorted id_desc (take 10 sorted ++ drop 10 sorted)).
  { rewrite take_drop. apply StronglySorted_merge_sort; apply _. }
  rewrite <- fmap_take.
  eexists. split; [reflexivity |].
  split. { by rewrite length_fmap, length_take, Hperm. }
  split.
  { apply (StronglySorted_fmap _ id_desc id_desc); [done |].
    by apply StronglySorted_app_1_l in Hss. }
  split.
  - intros t Ht. apply list_elem_of_fmap in Ht as (r & -> & Hr).
    exists r. split; [| done]. rewrite <- Hperm. by apply (subseteq_take 10).
  - intros r Hr. rewrite <- Hperm, <- (take_drop 10 sorted) in Hr.
    apply elem_of_app in Hr as [Hr | Hr].
    + left. by apply list_elem_of_fmap_2.
    + right. intros t Ht. apply list_elem_of_fmap in Ht as (x & -> & Hx).
      rewrite preload_ID.
      apply (StronglySorted_app_1_elem_of id_desc _ _ x r Hss Hx Hr).
Qed.

(** ** showResult *)

Lemma createTask_other_files (v : variant) (env : create_env) (c : gin.Context) (w : World) :
  rootDir (createTask v env c w).2 = rootDir w
  ∧ ∀ path,
      path <> filepath.Join [rootDir w; uuid_New env; "site.yaml"] ->
      path <> filepath.Join [rootDir w; uuid_New env; "inventory.ini"] ->
      files (createTask v env c w).2 !! path = files w !! path.
Proof.
  destruct w as [d fs root out].
  createTask_cases env;
    (split; [done |]; intros path H1 H2; by rewrite ?lookup_insert_ne by done).
Qed.

(** showResult on a task createTask has just created, in a data directory
    that held no result document for that uuid: the answer is 200 with an
    error document saying that the result file does not exist. *)
Theorem showResult_before_run `{dec : result_decoder}
    (v : variant) (env : create_env) (c : gin.Context) (w : World) :
  files w !! filepath.Join [rootDir w; uuid_New env; "result.json"] = None ->
  showResult None (uuid_New env) (createTask v env c w).2
  = {| reply_status := Some StatusOK;
       reply_body :=
         [doc_error ("open " +:+ filepath.Join [rootDir w; uuid_New env; "result.json"]
                     +:+ ": no such file or directory")] |}.
Proof.
  intros Hnone.
  destruct (createTask_other_files v env c w) as (Hroot & Hfiles).
  unfold showResult, readFile. rewrite Hroot, Hfiles, Hnone; [done | |].
  - intros H. by apply Join_file_inj in H.
  - intros H. by apply Join_file_inj in H.
Qed.

Lemma showResult_before_run_witness :
  showResult (dec := brace_decoder) None (uuid_New demo_create)
    (createTask main_go demo_create (gin.request demo_form) demo_world).2
  = {| reply_status := Some StatusOK;
       reply_body :=
         [doc_error ("open " +:+ filepath.Join [rootDir demo_world; uuid_New demo_create;
                                                "result.json"]
                     +:+ ": no such file or directory")] |}.
Proof.
  apply (showResult_before_run (dec := brace_decoder) main_go demo_create
           (gin.request demo_form) demo_world).
  reflexivity.
Defined.

(** main.go: after a run that returned nil, showResult on the id of the
    task answers 200 with whatever the decoder makes of the encoded
    document; with a decoder that inverts the encoder, that is the document
    the run parsed. *)
Theorem showResult_after_main_go_run `{dec : result_decoder}
    (env : run_env) (task : Task.t) (w : World) :
  (runAnsiblePlaybook main_go env task w).1 = None ->
  (∀ res raw, MarshalIndent res = inl raw -> Unmarshal raw = inl res) ->
  ∃ res,
    ParseJSONResultsStream (emits (proc env)) = inl res
    ∧ showResult None (Task.TaskID task) (runAnsiblePlaybook main_go env task w).2
      = {| reply_status := Some StatusOK; reply_body := [doc_result res] |}.
Proof.
  intros Hnil Hinv.
  pose proof (runAnsiblePlaybook_frame main_go env task w) as (Hroot & _ & _).
  revert Hnil Hroot. unfold runAnsiblePlaybook, Execute, os.WriteFile.
  destruct (timeout main_go <? runs_for (proc env))%Z; [done |].
  destruct (exit_code (proc env) =? 0)%Z; [| done].
  destruct (ParseJSONResultsStream (emits (proc env))) as [res|e]; [| done].
  destruct (MarshalIndent res) as [raw|e] eqn:Hm; [| done].
  destruct (write_result env); try done. cbn [fst snd].
  intros _ Hroot. exists res. split; [done |].
  unfold showResult, readFile. rewrite Hroot. cbn [files with_files].
  rewrite lookup_insert_eq. by rewrite (Hinv _ _ Hm).
Qed.

Lemma showResult_after_main_go_run_witness :
  ∃ res,
    @ParseJSONResultsStream brace_format (emits (proc succeeds)) = inl res
    ∧ showResult (dec := brace_decoder) None
        (Task.TaskID (gorm.First_task None "6f1c" (db (demo_created main_go))).2)
        (runAnsiblePlaybook (fmt := brace_format) main_go succeeds
           (gorm.First_task None "6f1c" (db (demo_created main_go))).2
           (demo_created main_go)).2
      = {| reply_status := Some StatusOK; reply_body := [doc_result res] |}.
Proof.
  apply (showResult_after_main_go_run (dec := brace_decoder) succeeds
           (gorm.First_task None "6f1c" (db (demo_created main_go))).2
           (demo_created main_go)).
  - reflexivity.
  - intros res raw H. cbn in H. injection H as <-. reflexivity.
Defined.

(** part_000: after a run whose buffer was read back and whose result file
    was written, showResult on the id of the task decodes the bytes the
    process emitted, whatever became of the process: the decoded document,
    or the decoder's error as an error document, both with status 200. *)
Theorem showResult_after_part_000_run `{dec : result_decoder}
    (env : run_env) (task : Task.t) (w : World) :
  read_all env = None ->
  write_result env = written ->
  showResult None (Task.TaskID task) (runAnsiblePlaybook part_000 env task w).2
  = {| reply_status := Some StatusOK;
       reply_body :=
         [match Unmarshal (emits (proc env)) with
          | inl res => doc_result res
          | inr e => doc_error (Error_text e)
          end] |}.
Proof.
  intros Hread Hwrite.
  unfold runAnsiblePlaybook. rewrite Hread, Hwrite.
  assert (∃ oe, Execute (timeout part_000) (proc env) = (oe, emits (proc env)))
    as [oe ->].
  { unfold Execute. repeat case_match; by eexists. }
  unfold os.WriteFile, showResult, readFile.
  destruct oe; cbn [snd print with_files rootDir files];
    rewrite lookup_insert_eq; by destruct (Unmarshal (emits (proc env))).
Qed.

Lemma showResult_after_part_000_run_witness :
  showResult (dec := brace_decoder) None
    (Task.TaskID (gorm.First_task None "6f1c" (db (demo_created part_000))).2)
    (runAnsiblePlaybook (fmt := brace_format) part_000 exits_nonzero
       (gorm.First_task None "6f1c" (db (demo_created part_000))).2
       (demo_created part_000)).2
  = {| reply_status := Some StatusOK;
       reply_body :=
         [match @Unmarshal brace_format brace_decoder (emits (proc exits_nonzero)) with
          | inl res => doc_result res
          | inr e => doc_error (Error_text e)
          end] |}.
Proof.
  apply (showResult_after_part_000_run (dec := brace_decoder) exits_nonzero
           (gorm.First_task None "6f1c" (db (demo_created part_000))).2
           (demo_created part_000)); reflexivity.
Defined.

(** ** The stand-alone runners *)

(** A runner exits with status 0 exactly when the process ended within the
    55 minutes with exit code 0, the buffer was read back and the result
    file was written; the file named by the flag then holds the captured
    output. In every other case it exits with status 1 after printing the
    error, and when it was the execution that failed no file is touched. *)
Theorem runner_main_exit (r : runner) (resultPath : string) (env : run_env)
    (fs : gmap string string) :
  let '(status, out, fs') := runner_main r resultPath env fs in
  let ok := (runs_for (proc env) <= runner_timeout)%Z ∧ exit_code (proc env) = 0%Z
            ∧ read_all env = None ∧ write_result env = written in
  (status = 0%Z ∧ ok ∧ fs' = <[resultPath := emits (proc env)]> fs)
  ∨ (status = 1%Z ∧ ¬ ok
     ∧ (∃ e, last out = Some (cli_fatal e))
     ∧ ((Execute runner_timeout (proc env)).1 <> None -> fs' = fs)
     ∧ ∀ path, path <> resultPath -> fs' !! path = fs !! path).
Proof.
  unfold runner_main, Execute, os.WriteFile.
  destruct (runner_timeout <? runs_for (proc env))%Z eqn:Ht.
  { apply Z.ltb_lt in Ht. right. repeat split; try done; [lia | by eexists]. }
  apply Z.ltb_ge in Ht.
  destruct (exit_code (proc env) =? 0)%Z eqn:Hx.
  2:{ apply Z.eqb_neq in Hx. right. repeat split; try done; [tauto | by eexists]. }
  apply Z.eqb_eq in Hx.
  destruct (read_all env) as [e|] eqn:Hr.
  { right. repeat split; try done; [by intros (_ & _ & ? & _) | ].
    destruct r; by eexists. }
  destruct (write_result env) as [e|e n|] eqn:Hw.
  - right. repeat split; try done; [by intros (_ & _ & _ & ?) | ].
    destruct r; by eexists.
  - right. repeat split; try done; [by intros (_ & _ & _ & ?) | |].
    + destruct r; by eexists.
    + intros path Hp. by rewrite lookup_insert_ne.
  - by left.
Qed.

(** ** Line endings *)

Lemma bytes_inj (s1 s2 : string) : strings.bytes s1 = strings.bytes s2 -> s1 = s2.
Proof.
  revert s2. induction s1 as [|c s1 IH]; intros [|d s2] H; cbn in H; try done.
  injection H as -> H. by rewrite (IH _ H).
Qed.

(** Two playbook bodies that differ only in carriage returns (the same text
    with Windows and with Unix line endings, say) are materialised as the
    same script. *)
Theorem playbook_line_endings (v : variant) (a b : string) :
  filter (fun c => c <> strings.CR) (strings.bytes a)
  = filter (fun c => c <> strings.CR) (strings.bytes b) ->
  playbook_buffer v a = playbook_buffer v b.
Proof.
  intros H. unfold playbook_buffer.
  rewrite <- !ReplaceAll_empty_bytes in H. by rewrite (bytes_inj _ _ H).
Qed.

Lemma playbook_line_endings_witness :
  playbook_buffer main_go ("- name: ping" +:+ String strings.CR nl +:+ "  ping:")
  = playbook_buffer main_go ("- name: ping" +:+ nl +:+ "  ping:").
Proof.
  apply (playbook_line_endings main_go
           ("- name: ping" +:+ String strings.CR nl +:+ "  ping:")
           ("- name: ping" +:+ nl +:+ "  ping:")).
  reflexivity.
Defined.

(** ** The error column over the runs of the server *)










(** The demo task in main.go, run twice: the first run fails (exit status
    2) and leaves the row Failed, the second succeeds and leaves it
    Succeeded; the error column is empty throughout. *)
Example demo_failed_then_succeeded :
  ∃ w1 w2,
    worker_run (fmt := brace_format) main_go 0 (job "6f1c" exits_nonzero 200%Z)
      at_recv (demo_created main_go) = Some (at_recv, w1)
    ∧ outcomes w1 = [(Failed, "")]
    ∧ worker_run (fmt := brace_format) main_go 1 (job "6f1c" succeeds 300%Z)
        at_recv w1 = Some (at_recv, w2)
    ∧ outcomes w2 = [(Succeeded, "")].
Proof.
  do 2 eexists. split; [vm_compute; reflexivity |].
  split; [vm_compute; reflexivity |].
  split; [vm_compute; reflexivity |]. vm_compute. done.
Qed.

(** The demo server, evaluated: worker 0 stands after the successful run of
    the demo task, and its final update stores Succeeded with an empty
    error. *)
Example demo_server_final_update :
  workers (demo_server part_000) !! 0
  = Some (at_update (gorm.First_task None "6f1c" (db (demo_created part_000))).2 None)
  ∧ option_map (fun s => outcomes (world s))
      (server_step (fmt := brace_format) part_000
         (srv_move (ev_work 0 (db_answer None 202%Z))) (demo_server part_000))
    = Some [(Succeeded, "")].
Proof. vm_compute. done. Qed.
